(** * 3DtilesParser: tile-tree ingestion and point-vs-building collision

    A shallow embedding of the Python sources of the repository:

    - [Core]          src/core/tilesParserSinglePoligonZ.py (footprint + height,
                      the pipeline served by the HTTP API)
    - [SinglePoligon] src/3DTilesParserSinglePoligon.py (earlier footprint script)
    - [Solid]         what src/3DTilesParser.py and
                      src/3DTilesParserMultiPath.py share word for word
                      ([apply_transform], the face loop)
    - [Parser3D]      the rest of src/3DTilesParser.py
    - [MultiPath]     the rest of src/3DTilesParserMultiPath.py
    - [PoligonZ]      src/3DTilesParserPoligonZ.py (MULTIPOLYGON Z pipeline)
    - [Collision]     src/collision/collision_detector.py

    Python floats are modelled by exact rationals ([Qc], canonical fractions,
    so that Python's [==] on numbers is Leibniz equality).  Rounding, infinities
    and NaN are outside the model. *)

From Stdlib Require Import QArith Qcanon Qcabs Lqa.
From Stdlib Require Import List String Ascii Bool Arith Lia DecimalString.
Import ListNotations.

Local Open Scope Qc_scope.
Local Open Scope list_scope.

(* ------------------------------------------------------------------ *)
(** ** Numbers *)

Definition qz (z : Z) : Qc := Q2Qc (inject_Z z).

(** The literal [1e-10] of 3DTilesParserPoligonZ.py. *)
Definition eps : Qc := Q2Qc (1 # 10000000000).

Definition Qcltb (a b : Qc) : bool :=
  if Qclt_le_dec a b then true else false.

Definition Qcleb (a b : Qc) : bool :=
  if Qclt_le_dec b a then false else true.

Definition Qceqb (a b : Qc) : bool :=
  if Qc_eq_dec a b then true else false.

(** Python's [a / b] on floats: [ZeroDivisionError] when [b == 0]. *)
Definition py_div (a b : Qc) : option Qc :=
  if Qc_eq_dec b 0 then None else Some (a / b).

(** Python's builtin [max] / [min] over a non-empty sequence: the running
    candidate is replaced only by a strictly larger (smaller) item. *)
Definition py_max (l : list Qc) : option Qc :=
  match l with
  | [] => None
  | x :: r => Some (fold_left (fun m y => if Qcltb m y then y else m) r x)
  end.

Definition py_min (l : list Qc) : option Qc :=
  match l with
  | [] => None
  | x :: r => Some (fold_left (fun m y => if Qcltb y m then y else m) r x)
  end.

(* ------------------------------------------------------------------ *)
(** ** Points, vectors and 4x4 matrices (numpy arrays of the footprint code) *)

Definition V3 : Type := (Qc * Qc * Qc)%type.
Definition V4 : Type := (Qc * Qc * Qc * Qc)%type.

(** A 4x4 [np.ndarray], stored by rows. *)
Definition Mat4 : Type := (V4 * V4 * V4 * V4)%type.

Definition v3_add (a b : V3) : V3 :=
  let '(a0, a1, a2) := a in let '(b0, b1, b2) := b in (a0 + b0, a1 + b1, a2 + b2).

Definition v3_sub (a b : V3) : V3 :=
  let '(a0, a1, a2) := a in let '(b0, b1, b2) := b in (a0 - b0, a1 - b1, a2 - b2).

Definition vx (p : V3) : Qc := fst (fst p).
Definition vy (p : V3) : Qc := snd (fst p).
Definition vz (p : V3) : Qc := snd p.

Definition dot4 (a b : V4) : Qc :=
  let '(a0, a1, a2, a3) := a in
  let '(b0, b1, b2, b3) := b in
  a0 * b0 + a1 * b1 + a2 * b2 + a3 * b3.

Definition col (j : nat) (m : Mat4) : V4 :=
  let pick (r : V4) := let '(r0, r1, r2, r3) := r in
                       match j with O => r0 | 1%nat => r1 | 2%nat => r2 | _ => r3 end in
  let '(r0, r1, r2, r3) := m in (pick r0, pick r1, pick r2, pick r3).

(** [np.eye(4)] *)
Definition eye4 : Mat4 :=
  ((1, 0, 0, 0), (0, 1, 0, 0), (0, 0, 1, 0), (0, 0, 0, 1)).

(** [a @ b] on two 4x4 arrays. *)
Definition matmul (a b : Mat4) : Mat4 :=
  let row (r : V4) : V4 :=
    (dot4 r (col 0 b), dot4 r (col 1 b), dot4 r (col 2 b), dot4 r (col 3 b)) in
  let '(r0, r1, r2, r3) := a in (row r0, row r1, row r2, row r3).

(** [m @ v] on a 4x4 array and a length-4 vector. *)
Definition matvec (m : Mat4) (v : V4) : V4 :=
  let '(r0, r1, r2, r3) := m in (dot4 r0 v, dot4 r1 v, dot4 r2 v, dot4 r3 v).

(* ------------------------------------------------------------------ *)
(** ** The tile tree (py3dtiles [Tile] objects, as the scripts read them) *)

(** [bounding_volume._box]: 12 numbers, centre followed by the three
    half-axis vectors; flat index [3*k + i] is component [i] of vector [k]. *)
Record Box : Type := mkBox {
  box_center : V3;
  box_x_axis : V3;
  box_y_axis : V3;
  box_z_axis : V3
}.

(** A tile.  [transform] is the flat list of numbers of the tileset JSON;
    [None] stands for a tile without the attribute or with the value [None]
    (the scripts test [hasattr] and [is not None] together or treat both the
    same way).  [bounding_volume] is [None] when the tile has no volume or
    one that is not a box. *)
Unset Elimination Schemes.
Inductive Tile : Type :=
  mkTile {
    transform : option (list Qc);
    bounding_volume : option Box;
    content_uri : option string;
    _refine : string;
    children : list Tile
  }.
Set Elimination Schemes.

(** Induction over the tree, with the property known for all children. *)
Section Tile_induction.
Variable P : Tile -> Prop.
Hypothesis P_node : forall tr bv uri rf ch,
    Forall P ch -> P (mkTile tr bv uri rf ch).

Fixpoint Tile_ind (t : Tile) : P t :=
  match t with
  | mkTile tr bv uri rf ch =>
      P_node tr bv uri rf ch
        ((fix go (l : list Tile) : Forall P l :=
            match l with
            | [] => Forall_nil P
            | c :: r => Forall_cons c (Tile_ind c) (go r)
            end) ch)
  end.
End Tile_induction.

(* ------------------------------------------------------------------ *)
(** ** Strings *)

(** [str.lower()] on the ASCII range. *)
Definition lower_ascii (c : ascii) : ascii :=
  let n := nat_of_ascii c in
  if ((65 <=? n) && (n <=? 90))%nat then ascii_of_nat (n + 32) else c.

Fixpoint lower (s : string) : string :=
  match s with
  | EmptyString => EmptyString
  | String c r => String (lower_ascii c) (lower r)
  end.

(** [s.endswith(suf)] *)
Definition endswith (s suf : string) : bool :=
  ((String.length suf <=? String.length s)%nat
   && String.eqb (substring (String.length s - String.length suf)
                            (String.length suf) s) suf)%bool.

(** Python truthiness of an optional string ([None] and [''] are falsy). *)
Definition truthy (o : option string) : bool :=
  match o with
  | Some s => match s with EmptyString => false | String _ _ => true end
  | None => false
  end.

(** [", ".join(parts)] *)
Definition join (sep : string) (parts : list string) : string :=
  String.concat sep parts.

(* ------------------------------------------------------------------ *)
(** ** src/core/tilesParserSinglePoligonZ.py *)

Module Core.

Record BoundsInfo : Type := mkBounds {
  to_ewkt : string;             (* b["bounding_volume"]["to_ewkt"] *)
  tile_url : option string;     (* b.get("tile_url") *)
  refine : string;
  tileset_dir : string;         (* b["properties"]["tileset_dir"] *)
  height : option Qc            (* b.get("height") *)
}.

(** [_apply_transform]: [np.append(point, 1.0)], [matrix @ .], [[:3]]. *)
Definition _apply_transform (point : V3) (matrix : Mat4) : V3 :=
  let '(x, y, z) := point in
  let '(x', y', z', _) := matvec matrix (x, y, z, 1) in
  (x', y', z').

(** [_matrix_from_column_major]: [reshape((4, 4), order='F')] puts flat
    element [i + 4*j] at row [i], column [j]; any other element count makes
    [reshape] raise ([None]). *)
Definition _matrix_from_column_major (array : list Qc) : option Mat4 :=
  match array with
  | [a0; a1; a2; a3; a4; a5; a6; a7; a8; a9; a10; a11; a12; a13; a14; a15] =>
      Some ((a0, a4, a8, a12), (a1, a5, a9, a13),
            (a2, a6, a10, a14), (a3, a7, a11, a15))
  | _ => None
  end.

(** Lines 92-98: the transform update with its [try] / [except: pass]. *)
Definition current_transform_of (parent_transform : Mat4)
           (tile_transform : option (list Qc)) : Mat4 :=
  match tile_transform with
  | Some array =>
      match _matrix_from_column_major array with
      | Some local_matrix => matmul parent_transform local_matrix
      | None => parent_transform          (* except: pass *)
      end
  | None => parent_transform
  end.

(** Lines 119-128. *)
Definition corners_local (box : Box) : list V3 :=
  let c := box_center box in
  let x := box_x_axis box in
  let y := box_y_axis box in
  let z := box_z_axis box in
  [ v3_sub (v3_sub (v3_sub c x) y) z;
    v3_sub (v3_sub (v3_add c x) y) z;
    v3_sub (v3_add (v3_add c x) y) z;
    v3_sub (v3_add (v3_sub c x) y) z;
    v3_add (v3_sub (v3_sub c x) y) z;
    v3_add (v3_sub (v3_add c x) y) z;
    v3_add (v3_add (v3_add c x) y) z;
    v3_add (v3_add (v3_sub c x) y) z ].

Section Format.
(** [f"{v:.6f}"] *)
Variable fmt6 : Qc -> string.
Variable tileset_dir_arg : string.

Definition coord_str (p : V3) : string :=
  let '(x, y, z) := p in
  (fmt6 x ++ " " ++ fmt6 y ++ " " ++ fmt6 z)%string.

(** Lines 134-135: [corners_world[:4]] then [append(.[0])]. *)
Definition bottom_ring (corners_world : list V3) : list V3 :=
  let bottom_corners_world := firstn 4 corners_world in
  match bottom_corners_world with
  | [] => []                                  (* IndexError, caught *)
  | first :: _ => bottom_corners_world ++ [first]
  end.

(** Lines 137-138. *)
Definition polygon_ewkt (ring : list V3) : string :=
  ("POLYGON Z ((" ++ join ", " (map coord_str ring) ++ "))")%string.

(** Lines 140-142. *)
Definition box_height (box : Box) : option Qc :=
  let z_values := map vz (corners_local box) in
  match py_max z_values, py_min z_values with
  | Some hi, Some lo => Some (hi - lo)
  | _, _ => None
  end.

(** Lines 145-146: [tile_url and str(tile_url).lower().endswith(".b3dm")]. *)
Definition is_b3dm (tile_url : option string) : bool :=
  match tile_url with
  | Some u => truthy tile_url && endswith (lower u) ".b3dm"
  | None => false
  end.

(** Lines 101-157: what a tile contributes by itself. *)
Definition tile_bounds (tile : Tile) (current_transform : Mat4)
  : list BoundsInfo :=
  match children tile with
  | [] =>                                                   (* is_leaf *)
      match bounding_volume tile with
      | Some box =>
          let corners_world :=
            map (fun corner => _apply_transform corner current_transform)
                (corners_local box) in
          match box_height box, content_uri tile with
          | Some h, Some u =>
              if is_b3dm (Some u)
              then mkBounds (polygon_ewkt (bottom_ring corners_world))
                            (Some u) (_refine tile) tileset_dir_arg
                            (Some h) :: []
              else []
          | _, _ => []
          end
      | None => []
      end
  | _ :: _ => []
  end.

(** Lines 81-166. *)
Fixpoint _recursive_collect (tile : Tile) (parent_transform : Mat4)
  : list BoundsInfo :=
  let current_transform :=
    current_transform_of parent_transform (transform tile) in
  tile_bounds tile current_transform
  ++ flat_map (fun child => _recursive_collect child current_transform)
              (children tile).

(** Line 168: the walk starts at the root with [np.eye(4)]. *)
Definition collect_tileset_bounds (root_tile : Tile) : list BoundsInfo :=
  _recursive_collect root_tile eye4.
End Format.

(** [visits root m0 t m]: the walk started at [root] with parent transform
    [m0] comes to tile [t] and holds [m] as its [current_transform] there. *)
Inductive visits : Tile -> Mat4 -> Tile -> Mat4 -> Prop :=
| visits_here (t : Tile) (m0 : Mat4) :
    visits t m0 t (current_transform_of m0 (transform t))
| visits_child (t c t' : Tile) (m0 m' : Mat4) :
    In c (children t) ->
    visits c (current_transform_of m0 (transform t)) t' m' ->
    visits t m0 t' m'.

(** The root-to-tile chain of tiles the walk descends along. *)
Inductive path : Tile -> list Tile -> Tile -> Prop :=
| path_here (t : Tile) : path t [t] t
| path_child (t c t' : Tile) (p : list Tile) :
    In c (children t) -> path c p t' -> path t (t :: p) t'.

(** The local matrix of a tile, when it has a transform of 16 numbers. *)
Definition local_matrix (t : Tile) : option Mat4 :=
  match transform t with
  | Some array => _matrix_from_column_major array
  | None => None
  end.

(** The product [m0 @ L1 @ L2 @ ...] of the local matrices met along a chain. *)
Definition compose_along (m0 : Mat4) (p : list Tile) : Mat4 :=
  fold_left (fun acc t => match local_matrix t with
                          | Some l => matmul acc l
                          | None => acc
                          end) p m0.

(** A row handed to [execute_batch] (lines 223-231); [rec_properties] keeps
    the one entry of [properties], the tileset directory. *)
Record DbRecord : Type := mkDbRecord {
  rec_id : string;
  rec_name : string;
  rec_tile_url : option string;
  rec_ewkt : string;
  rec_refine : string;
  rec_properties : string;
  rec_height : option Qc
}.

Section Identity.
(** [hashlib.md5(s.encode('utf-8')).hexdigest()], a function of its input. *)
Variable md5_hexdigest : string -> string.
(** [str(uuid.uuid4())]: a draw from the process's random source. *)
Variable Rng : Type.
Variable uuid4 : Rng -> string * Rng.

(** Line 207: [str(b.get("tile_url")) if b.get("tile_url") else None]. *)
Definition tile_url_of (b : BoundsInfo) : option string :=
  if truthy (tile_url b) then tile_url b else None.

(** Lines 211-221. *)
Definition record_id (tile_url : option string) (rng : Rng) : string * Rng :=
  match tile_url with
  | Some u => if truthy tile_url then (md5_hexdigest u, rng) else uuid4 rng
  | None => uuid4 rng
  end.

(** Lines 201-231: the [records] list built by [insert_buildings_to_postgis]. *)
Fixpoint build_records (building_data : list BoundsInfo) (rng : Rng)
  : list DbRecord * Rng :=
  match building_data with
  | [] => ([], rng)
  | b :: rest =>
      let ewkt := ("SRID=4978;" ++ to_ewkt b)%string in
      let tile_url := tile_url_of b in
      let '(tile_url_md5, rng1) := record_id tile_url rng in
      let '(records, rng2) := build_records rest rng1 in
      (mkDbRecord tile_url_md5 "Building" tile_url ewkt (refine b)
                  (tileset_dir b) (height b) :: records, rng2)
  end.
End Identity.

End Core.

(* ------------------------------------------------------------------ *)
(** ** src/3DTilesParserSinglePoligon.py *)

Module SinglePoligon.

Record BoundsInfo : Type := mkBounds {
  to_ewkt : string;
  tile_url : option string;
  refine : string;
  tileset_dir : string;
  parent_dir : string;
  height : option Qc
}.

(** [box_to_polygonz]: the four bottom corners from sign triples, closed by
    repeating the first. *)
Definition box_to_polygonz (box : Box) : list V3 :=
  let center := box_center box in
  let x_axis := box_x_axis box in
  let y_axis := box_y_axis box in
  let z_axis := box_z_axis box in
  let corners_local : list (Qc * Qc * Qc) :=
    [ (- (1), - (1), - (1)); (1, - (1), - (1)); (1, 1, - (1)); (- (1), 1, - (1)) ] in
  let points :=
    map (fun '(dx, dy, dz) =>
           (vx center + dx * vx x_axis + dy * vx y_axis + dz * vx z_axis,
            vy center + dx * vy x_axis + dy * vy y_axis + dz * vy z_axis,
            vz center + dx * vz x_axis + dy * vz y_axis + dz * vz z_axis))
        corners_local in
  match points with
  | [] => []
  | first :: _ => points ++ [first]
  end.

Section Format.
Variable fmt6 : Qc -> string.
Variable tileset_dir_arg : string.
Variable parent_dir_arg : string.  (* [str(Path(tileset_dir).parent.name)] *)
(** [isinstance(tile.content_uri, Path)]: whether the tile holds its content
    reference as a [pathlib.Path] rather than as text. *)
Variable is_path : Tile -> bool.
(** [Path.suffix] of pathlib, for the path whose text is given. *)
Variable path_suffix : string -> string.

Definition coord_str (p : V3) : string :=
  let '(x, y, z) := p in
  (fmt6 x ++ " " ++ fmt6 y ++ " " ++ fmt6 z)%string.

(** Lines 121-128: the test on the content reference, by [Path.suffix] for a
    [Path] and by [str.endswith] for anything else. *)
Definition is_b3dm (tile : Tile) (tile_url : string) : bool :=
  if is_path tile then String.eqb (lower (path_suffix tile_url)) ".b3dm"
  else endswith (lower tile_url) ".b3dm".

(** Lines 98-149.  The [return []] of lines 119, 124 and 128 leave the
    function before the loop over [tile.children] is reached.  A [Path] is
    always truthy and its text is never empty, so [truthy] on the text
    decides line 116 for both kinds of reference. *)
Fixpoint _recursive_collect (tile : Tile) : list BoundsInfo :=
  let rest := flat_map _recursive_collect (children tile) in
  match bounding_volume tile with
  | Some box =>
      let points := box_to_polygonz box in
      let cz := vz (box_center box) in
      let dz := vz (box_z_axis box) in          (* box[11] *)
      let min_z := cz - dz in
      let max_z := cz + dz in
      let height := max_z - min_z in
      if truthy (content_uri tile) then
        match content_uri tile with
        | Some u =>
            if negb (is_b3dm tile u) then []                 (* return [] *)
            else
              let polygon_ewkt :=
                ("POLYGON Z ((" ++ join ", " (map coord_str points) ++ "))")%string in
              mkBounds polygon_ewkt (Some u) (_refine tile) tileset_dir_arg
                       parent_dir_arg (Some height) :: rest
        | None => []
        end
      else []                                                (* return [] *)
  | None => rest
  end.

Definition collect_tileset_bounds (root_tile : Tile) : list BoundsInfo :=
  _recursive_collect root_tile.
End Format.

Record DbRecord : Type := mkDbRecord {
  rec_id : string;
  rec_name : string;
  rec_tile_url : option string;
  rec_ewkt : string;
  rec_refine : string;
  rec_properties : string;
  rec_height : option Qc
}.

Section Identity.
Variable Rng : Type.
Variable uuid4 : Rng -> string * Rng.

(** Lines 184-202: every row takes [str(uuid.uuid4())] as its id. *)
Fixpoint build_records (building_data : list BoundsInfo) (rng : Rng)
  : list DbRecord * Rng :=
  match building_data with
  | [] => ([], rng)
  | b :: rest =>
      let ewkt := ("SRID=4978;" ++ to_ewkt b)%string in
      let tile_url := if truthy (tile_url b) then tile_url b else None in
      let '(id, rng1) := uuid4 rng in
      let '(records, rng2) := build_records rest rng1 in
      (mkDbRecord id "Building" tile_url ewkt (refine b)
                  (tileset_dir b) (height b) :: records, rng2)
  end.
End Identity.

End SinglePoligon.

(* ------------------------------------------------------------------ *)
(** ** src/3DTilesParser.py and src/3DTilesParserMultiPath.py *)

(** A list comprehension whose body may raise: the first exception ([None])
    ends it. *)
Fixpoint traverse {A B : Type} (f : A -> option B) (l : list A) : option (list B) :=
  match l with
  | [] => Some []
  | a :: r =>
      match f a with
      | Some b =>
          match traverse f r with
          | Some bs => Some (b :: bs)
          | None => None
          end
      | None => None
      end
  end.

(** [for child in tile.children: bounds_list.extend(visit(child))], where a
    visit that raises ([None]) ends the loop and the caller. *)
Definition extend_each {A : Type} (visit : Tile -> option (list A))
  : list Tile -> list A -> option (list A) :=
  fix loop (cs : list Tile) (bounds_list : list A) : option (list A) :=
    match cs with
    | [] => Some bounds_list
    | child :: rest =>
        match visit child with
        | Some more => loop rest (bounds_list ++ more)
        | None => None
        end
    end.

Module Solid.

(** [matrix[i]] on a flat list that is known to hold at least 16 items. *)
Definition at_ (matrix : list Qc) (i : nat) : Qc := nth i matrix 0.

(** Lines 121-133 of 3DTilesParser.py (133-140 of 3DTilesParserMultiPath.py):
    a list shorter than 16 is replaced by an identity that carries its
    first three items as translation. *)
Definition repair (transform_matrix : list Qc) : list Qc :=
  if (List.length transform_matrix <? 16)%nat then
    let identity := [1; 0; 0; 0; 0; 1; 0; 0; 0; 0; 1; 0; 0; 0; 0; 1] in
    if (3 <=? List.length transform_matrix)%nat then
      firstn 12 identity
        ++ [at_ transform_matrix 0; at_ transform_matrix 1; at_ transform_matrix 2]
        ++ skipn 15 identity
    else identity
  else transform_matrix.

(** Lines 135-140: [multiply], with the plain [/] of Python. *)
Definition multiply (matrix : list Qc) (p : V3) : option V3 :=
  let '(x, y, z) := p in
  let w := 1 in
  let x_new := at_ matrix 0 * x + at_ matrix 4 * y + at_ matrix 8 * z + at_ matrix 12 * w in
  let y_new := at_ matrix 1 * x + at_ matrix 5 * y + at_ matrix 9 * z + at_ matrix 13 * w in
  let z_new := at_ matrix 2 * x + at_ matrix 6 * y + at_ matrix 10 * z + at_ matrix 14 * w in
  let w_new := at_ matrix 3 * x + at_ matrix 7 * y + at_ matrix 11 * z + at_ matrix 15 * w in
  match py_div x_new w_new, py_div y_new w_new, py_div z_new w_new with
  | Some a, Some b, Some c => Some (a, b, c)
  | _, _, _ => None                               (* ZeroDivisionError *)
  end.

Definition apply_transform (points : list V3) (transform_matrix : list Qc)
  : option (list V3) :=
  traverse (multiply (repair transform_matrix)) points.

(** A coordinate as [clean_points] may meet it: a plain number, or an array
    of numbers. *)
Inductive Coord : Type :=
| Scalar (v : Qc)
| Arr (a : list Qc).

Definition RawPoint : Type := (Coord * Coord * Coord)%type.

Definition raw_of (p : V3) : RawPoint :=
  let '(x, y, z) := p in (Scalar x, Scalar y, Scalar z).

(** The face table shared by both scripts. *)
Definition faces : list (list nat) :=
  [ [0; 1; 2; 3]; [4; 5; 6; 7]; [0; 1; 5; 4];
    [1; 2; 6; 5]; [2; 3; 7; 6]; [3; 0; 4; 7] ]%nat.

Section Format.
(** [f"{v}"] *)
Variable fmt : Qc -> string.

Definition coord_str (p : V3) : string :=
  let '(x, y, z) := p in (fmt x ++ " " ++ fmt y ++ " " ++ fmt z)%string.

(** One iteration of the loop over [faces]. *)
Definition polygon_str (points : list V3) (face : list nat) : option string :=
  match traverse (nth_error points) face with       (* points[i], IndexError *)
  | Some face_points =>
      let polygon_points := map coord_str face_points in
      match polygon_points with
      | [] => None                                   (* polygon_points[0] *)
      | first :: _ =>
          Some ("((" ++ join ", " (polygon_points ++ [first]) ++ "))")%string
      end
  | None => None
  end.

Definition polyhedron_of (points : list V3) : option string :=
  match traverse (polygon_str points) faces with
  | Some polygons =>
      Some ("POLYHEDRALSURFACE Z (" ++ join ", " polygons ++ ")")%string
  | None => None
  end.
End Format.

End Solid.

(** *** src/3DTilesParser.py *)
Module Parser3D.
Import Solid.

(** [clean_points], lines 144-157: [p[0][0]], [p[1][0]], [p[2][0]]. *)
Definition first_of (c : Coord) : option Qc :=
  match c with
  | Scalar _ => None                 (* a number is not subscriptable *)
  | Arr a => nth_error a 0
  end.

Definition clean_points (raw_points : list RawPoint) : option (list V3) :=
  traverse (fun '(p0, p1, p2) =>
              match first_of p0, first_of p1, first_of p2 with
              | Some x, Some y, Some z => Some (x, y, z)
              | _, _, _ => None
              end) raw_points.

(** [create_polyhedron_wkt], lines 159-192. *)
Definition create_polyhedron_wkt (fmt : Qc -> string) (points : list RawPoint)
  : option string :=
  match clean_points points with
  | Some cleaned => polyhedron_of fmt cleaned
  | None => None
  end.

End Parser3D.

(** *** src/3DTilesParserMultiPath.py *)
Module MultiPath.
Import Solid.

Record BoundsInfo : Type := mkBounds {
  to_ewkt : string;               (* the value the stored lambda returns *)
  tile_url : option string;
  refine : string;
  tileset_dir : string;
  parent_dir : string
}.

(** [clean_points], lines 152-161. *)
Definition first_or_self (c : Coord) : option Qc :=
  match c with
  | Scalar v => Some v
  | Arr a => nth_error a 0
  end.

Definition clean_points (raw_points : list RawPoint) : option (list V3) :=
  traverse (fun '(p0, p1, p2) =>
              match first_or_self p0, first_or_self p1, first_or_self p2 with
              | Some x, Some y, Some z => Some (x, y, z)
              | _, _, _ => None
              end) raw_points.

Definition create_polyhedron_wkt (fmt : Qc -> string) (points : list RawPoint)
  : option string :=
  match clean_points points with
  | Some cleaned => polyhedron_of fmt cleaned
  | None => None
  end.

(** Lines 84-100: the corners built from [box[0..2]], [box[3]], [box[7]]
    and [box[11]]. *)
Definition local_points (box : Box) : list V3 :=
  let '(cx, cy, cz) := box_center box in
  let hx := vx (box_x_axis box) in
  let hy := vy (box_y_axis box) in
  let hz := vz (box_z_axis box) in
  [ (cx - hx, cy - hy, cz - hz); (cx + hx, cy - hy, cz - hz);
    (cx + hx, cy + hy, cz - hz); (cx - hx, cy + hy, cz - hz);
    (cx - hx, cy - hy, cz + hz); (cx + hx, cy - hy, cz + hz);
    (cx + hx, cy + hy, cz + hz); (cx - hx, cy + hy, cz + hz) ].

(** Lines 77-80: the tile's own transform when it has one, else the one
    handed down.  The test is [hasattr(tile, 'transform')]: [transform tile =
    None] stands for a tile object without that attribute, not for one whose
    attribute is [None] or the identity. *)
Definition tile_transform_of (tile : Tile) (current_transform : option (list Qc))
  : option (list Qc) :=
  match transform tile with
  | Some own => Some own
  | None => current_transform
  end.

(** Lines 102-104: the points the WKT is made from. *)
Definition world_points (box : Box) (tile_transform : option (list Qc))
  : option (list V3) :=
  match tile_transform with
  | Some m => apply_transform (local_points box) m
  | None => Some (local_points box)
  end.

Section Format.
Variable fmt : Qc -> string.
Variable tileset_dir_arg : string.
Variable parent_dir_arg : string.

(** Lines 82-117.  [None] is an exception leaving the function. *)
Definition tile_bounds (tile : Tile) (tile_transform : option (list Qc))
  : option (list BoundsInfo) :=
  match bounding_volume tile with
  | Some box =>
      match world_points box tile_transform with
      | Some points =>
          match create_polyhedron_wkt fmt (map raw_of points) with
          | Some polyhedron_wkt =>
              Some (mkBounds polyhedron_wkt
                              (if truthy (content_uri tile) then content_uri tile else None)
                              (_refine tile) tileset_dir_arg parent_dir_arg :: [])
          | None => None
          end
      | None => None
      end
  | None => Some []
  end.

Fixpoint _recursive_collect (tile : Tile) (current_transform : option (list Qc))
  : option (list BoundsInfo) :=
  let tile_transform := tile_transform_of tile current_transform in
  match tile_bounds tile tile_transform with
  | Some bounds_list =>
      extend_each (fun child => _recursive_collect child tile_transform)
                  (children tile) bounds_list
  | None => None
  end.

Definition collect_tileset_bounds (root_tile : Tile)
           (base_transform : option (list Qc)) : option (list BoundsInfo) :=
  _recursive_collect root_tile base_transform.
End Format.

End MultiPath.

(* ------------------------------------------------------------------ *)
(** ** src/3DTilesParserPoligonZ.py *)

(** What a call that may raise hands back. *)
Inductive Exn : Type :=
| AssertionError
| ZeroDivisionError.

Inductive Outcome (A : Type) : Type :=
| Returned (a : A)
| Raised (e : Exn).
Arguments Returned {A} a.
Arguments Raised {A} e.

(** The same loop over children, with the exception kept. *)
Definition extend_all {A : Type} (visit : Tile -> Outcome (list A))
  : list Tile -> list A -> Outcome (list A) :=
  fix loop (cs : list Tile) (bounds_list : list A) : Outcome (list A) :=
    match cs with
    | [] => Returned bounds_list
    | child :: rest =>
        match visit child with
        | Returned more => loop rest (bounds_list ++ more)
        | Raised e => Raised e
        end
    end.

Definition V3_eq_dec (p q : V3) : {p = q} + {p <> q}.
Proof.
  destruct p as [[a b] c], q as [[a' b'] c'].
  destruct (Qc_eq_dec a a'); [| right; congruence].
  destruct (Qc_eq_dec b b'); [| right; congruence].
  destruct (Qc_eq_dec c c'); [| right; congruence].
  left; congruence.
Defined.

Module PoligonZ.

Record BoundsInfo : Type := mkBounds {
  to_ewkt : option string;        (* what the stored lambda returns *)
  tile_url : option string;
  refine : string;
  tileset_dir : string;
  parent_dir : string
}.

Definition identity16 : list Qc :=
  [1; 0; 0; 0; 0; 1; 0; 0; 0; 0; 1; 0; 0; 0; 0; 1].

Definition at_ (matrix : list Qc) (i : nat) : Qc := nth i matrix 0.

(** [l[i] = v] on a list that holds index [i]. *)
Fixpoint set_at (i : nat) (v : Qc) (l : list Qc) : list Qc :=
  match l, i with
  | [], _ => []
  | _ :: r, O => v :: r
  | x :: r, S j => x :: set_at j v r
  end.

(** Lines 161-162: truncate to 16 items, then pad with [0.0]. *)
Definition pad16 (flat_matrix : list Qc) : list Qc :=
  let cut := firstn 16 flat_matrix in
  cut ++ repeat 0 (16 - List.length cut).

(** One of lines 164-167: [if flat_matrix[i] == 0: flat_matrix[i] = 1.0]. *)
Definition default_one (i : nat) (flat_matrix : list Qc) : list Qc :=
  if Qceqb (at_ flat_matrix i) 0 then set_at i 1 flat_matrix else flat_matrix.

(** Lines 146-167, for a flat list of numbers. *)
Definition flat_matrix_of (transform_matrix : list Qc) : list Qc :=
  default_one 15 (default_one 10 (default_one 5 (default_one 0
    (pad16 transform_matrix)))).

(** Lines 175-181: the homogeneous weight, and the divisor after the guard. *)
Definition w_new_of (matrix : list Qc) (p : V3) : Qc :=
  let '(x, y, z) := p in
  at_ matrix 3 * x + at_ matrix 7 * y + at_ matrix 11 * z + at_ matrix 15 * 1.

Definition divisor_of (w_new : Qc) : Qc :=
  if Qcltb (Qcabs w_new) eps then eps else w_new.

(** Lines 170-187: [multiply]. *)
Definition multiply (matrix : list Qc) (p : V3) : option V3 :=
  let '(x, y, z) := p in
  let w := 1 in
  let x_new := at_ matrix 0 * x + at_ matrix 4 * y + at_ matrix 8 * z + at_ matrix 12 * w in
  let y_new := at_ matrix 1 * x + at_ matrix 5 * y + at_ matrix 9 * z + at_ matrix 13 * w in
  let z_new := at_ matrix 2 * x + at_ matrix 6 * y + at_ matrix 10 * z + at_ matrix 14 * w in
  let w_new := divisor_of (w_new_of matrix p) in
  match py_div x_new w_new, py_div y_new w_new, py_div z_new w_new with
  | Some a, Some b, Some c => Some (a, b, c)
  | _, _, _ => None                               (* ZeroDivisionError *)
  end.

Definition apply_transform (points : list V3) (transform_matrix : list Qc)
  : option (list V3) :=
  traverse (multiply (flat_matrix_of transform_matrix)) points.

(** Lines 95-104. *)
Definition local_points (box : Box) : list V3 :=
  let '(cx, cy, cz) := box_center box in
  let hx := vx (box_x_axis box) in
  let hy := vy (box_y_axis box) in
  let hz := vz (box_z_axis box) in
  [ (cx - hx, cy - hy, cz - hz); (cx + hx, cy - hy, cz - hz);
    (cx + hx, cy + hy, cz - hz); (cx - hx, cy + hy, cz - hz);
    (cx - hx, cy - hy, cz + hz); (cx + hx, cy - hy, cz + hz);
    (cx + hx, cy + hy, cz + hz); (cx - hx, cy + hy, cz + hz) ].

(** Lines 81-84: own transform, else the inherited one, else (when that is
    [None] or empty) the identity list. *)
Definition tile_transform_of (tile : Tile) (current_transform : option (list Qc))
  : list Qc :=
  match transform tile with
  | Some own => own
  | None =>
      match current_transform with
      | Some (x :: r) => x :: r
      | _ => identity16
      end
  end.

(** Lines 113-114: [len(points) == len(set(tuple(p) for p in points))]. *)
Definition all_unique (points : list V3) : bool :=
  (List.length points =? List.length (nodup V3_eq_dec points))%nat.

Definition faces : list (list nat) :=
  [ [0; 1; 2; 3]; [4; 5; 6; 7]; [0; 1; 5; 4];
    [1; 2; 6; 5]; [2; 3; 7; 6]; [3; 0; 4; 7] ]%nat.

Section Format.
Variable fmt6 : Qc -> string.
(** Whether [shapely.wkt.loads] accepts the text. *)
Variable shapely_loads : string -> bool.
Variable tileset_dir_arg : string.
Variable parent_dir_arg : string.

Definition coord_str (p : V3) : string :=
  let '(x, y, z) := p in (fmt6 x ++ " " ++ fmt6 y ++ " " ++ fmt6 z)%string.

Definition polygon_str (points : list V3) (face : list nat) : option string :=
  match traverse (nth_error points) face with
  | Some face_points =>
      match face_points with
      | [] => None
      | first :: _ =>
          Some ("((" ++ join ", " (map coord_str (face_points ++ [first])) ++ "))")%string
      end
  | None => None
  end.

(** [create_multipolygon_wkt], lines 212-275; [None] is the Python [None]
    it returns on every rejected input. *)
Definition create_multipolygon_wkt (points : list V3) : option string :=
  if negb (List.length points =? 8)%nat then None
  else
    match traverse (polygon_str points) faces with
    | Some polygons =>
        let wkt_str := ("MULTIPOLYGON Z (" ++ join ", " polygons ++ ")")%string in
        if shapely_loads wkt_str then Some wkt_str else None
    | None => None
    end.

(** Lines 86-127: what a tile contributes; the [assert] of line 114 raises. *)
Definition tile_bounds (tile : Tile) (tile_transform : list Qc)
  : Outcome (list BoundsInfo) :=
  match bounding_volume tile with
  | Some box =>
      match apply_transform (local_points box) tile_transform with
      | Some points =>
          if all_unique points then
            Returned (mkBounds (create_multipolygon_wkt points)
                        (if truthy (content_uri tile) then content_uri tile else None)
                        (_refine tile) tileset_dir_arg parent_dir_arg :: [])
          else Raised AssertionError
      | None => Raised ZeroDivisionError
      end
  | None => Returned []
  end.

Fixpoint _recursive_collect (tile : Tile) (current_transform : option (list Qc))
  : Outcome (list BoundsInfo) :=
  let tile_transform := tile_transform_of tile current_transform in
  match tile_bounds tile tile_transform with
  | Returned bounds_list =>
      extend_all (fun child => _recursive_collect child (Some tile_transform))
                 (children tile) bounds_list
  | Raised e => Raised e
  end.

Definition collect_tileset_bounds (root_tile : Tile)
  : Outcome (list BoundsInfo) :=
  _recursive_collect root_tile None.
End Format.

(** [visits root cur t tt]: the walk started at [root] with inherited
    transform [cur] comes to [t] and holds [tt] as [tile_transform] there. *)
Inductive visits : Tile -> option (list Qc) -> Tile -> list Qc -> Prop :=
| visits_here (t : Tile) (cur : option (list Qc)) :
    visits t cur t (tile_transform_of t cur)
| visits_child (t c t' : Tile) (cur : option (list Qc)) (tt : list Qc) :
    In c (children t) ->
    visits c (Some (tile_transform_of t cur)) t' tt ->
    visits t cur t' tt.

(** The tile's eight points after [apply_transform] hold a repeated point. *)
Definition degenerate (t : Tile) (tt : list Qc) : Prop :=
  exists box pts,
    bounding_volume t = Some box
    /\ apply_transform (local_points box) tt = Some pts
    /\ ~ NoDup pts.

End PoligonZ.

(* ------------------------------------------------------------------ *)
(** ** src/collision/collision_detector.py *)

Module Collision.

(** A row of [dk_buildings], as the footprint ingestion writes it: the
    geometry is a [POLYGON Z] with one ring, kept here as that ring.  Columns
    other than [id] are nullable. *)
Record Building : Type := mkBuilding {
  id : string;
  tile_url : option string;
  properties_tileset_dir : option string;     (* properties->>'tileset_dir' *)
  height : option Qc;
  bounding_volume : option (list V3)
}.

(** A row of the result set. *)
Record Hit : Type := mkHit {
  hit_id : string;
  hit_tile_url : option string;
  hit_source_dir : option string;
  hit_height : option Qc;
  hit_ground_z : option Qc
}.

Definition P2 : Type := (Qc * Qc)%type.

(** *** The PostGIS functions of the query, on exact coordinates *)

Definition ST_ExteriorRing (g : option (list V3)) : option (list V3) := g.

(** [ST_PointN(ring, n)]: 1-based; NULL out of range. *)
Definition ST_PointN (ring : option (list V3)) (n : nat) : option V3 :=
  match ring, n with
  | Some pts, S k => nth_error pts k
  | _, _ => None
  end.

Definition ST_Z (p : option V3) : option Qc := option_map vz p.

Definition ST_Force2D (g : option (list V3)) : option (list P2) :=
  option_map (map (fun p => (vx p, vy p))) g.

Definition ST_MakePoint (x y : Qc) : P2 := (x, y).

(** The edges of a ring: consecutive vertex pairs. *)
Definition edges (ring : list P2) : list (P2 * P2) :=
  combine ring (tl ring).

(** [p] lies on the closed segment [a b]. *)
Definition on_segment (p : P2) (e : P2 * P2) : bool :=
  let '(px, py) := p in
  let '((ax, ay), (bx, by_)) := e in
  Qceqb ((bx - ax) * (py - ay) - (by_ - ay) * (px - ax)) 0
  && Qcleb (if Qcltb ax bx then ax else bx) px
  && Qcleb px (if Qcltb ax bx then bx else ax)
  && Qcleb (if Qcltb ay by_ then ay else by_) py
  && Qcleb py (if Qcltb ay by_ then by_ else ay).

(** The horizontal ray from [p] towards +x crosses the edge. *)
Definition crosses (p : P2) (e : P2 * P2) : bool :=
  let '(px, py) := p in
  let '((ax, ay), (bx, by_)) := e in
  negb (Bool.eqb (Qcltb py ay) (Qcltb py by_))
  && Qcltb px ((bx - ax) * (py - ay) / (by_ - ay) + ax).

(** [p] is in the interior of the ring or on its boundary. *)
Definition covers (ring : list P2) (p : P2) : bool :=
  existsb (on_segment p) (edges ring)
  || Nat.odd (List.length (filter (crosses p) (edges ring))).

(** [ST_Intersects(polygon, point)]: the point is not disjoint from the
    closed polygon; NULL when the geometry is NULL. *)
Definition ST_Intersects (g : option (list P2)) (p : P2) : option bool :=
  option_map (fun ring => covers ring p) g.

(** *** SQL three-valued logic *)

Definition sql_and (a b : option bool) : option bool :=
  match a, b with
  | Some false, _ | _, Some false => Some false
  | Some true, Some true => Some true
  | _, _ => None
  end.

Definition sql_ge (a b : option Qc) : option bool :=
  match a, b with
  | Some u, Some v => Some (Qcleb v u)
  | _, _ => None
  end.

Definition sql_le (a b : option Qc) : option bool :=
  match a, b with
  | Some u, Some v => Some (Qcleb u v)
  | _, _ => None
  end.

Definition sql_plus (a b : option Qc) : option Qc :=
  match a, b with
  | Some u, Some v => Some (u + v)
  | _, _ => None
  end.

(** *** The query of [check_collision_in_db] *)

(** [ST_Z(ST_PointN(ST_ExteriorRing(bounding_volume), 1))] *)
Definition ground_z_expr (b : Building) : option Qc :=
  ST_Z (ST_PointN (ST_ExteriorRing (bounding_volume b)) 1).

(** The WHERE clause, lines 22-30. *)
Definition where_clause (x y z : Qc) (b : Building) : option bool :=
  sql_and
    (sql_and
       (ST_Intersects (ST_Force2D (bounding_volume b)) (ST_MakePoint x y))
       (sql_ge (Some z) (ground_z_expr b)))
    (sql_le (Some z) (sql_plus (ground_z_expr b) (height b))).

(** The SELECT list, lines 14-19. *)
Definition select_list (b : Building) : Hit :=
  mkHit (id b) (tile_url b) (properties_tileset_dir b) (height b) (ground_z_expr b).

(** A row is kept when the WHERE clause is true (not false, not NULL). *)
Definition selected (x y z : Qc) (b : Building) : bool :=
  match where_clause x y z b with
  | Some true => true
  | _ => false
  end.

(** [check_collision_in_db]: [cur.execute] then [cur.fetchall()] over the
    table contents [dk_buildings]. *)
Definition check_collision_in_db (dk_buildings : list Building)
           (point_x point_y point_z : Qc) : list Hit :=
  map select_list (filter (selected point_x point_y point_z) dk_buildings).

(** *** The collision condition in plain terms *)

(** The footprint of a stored ring: its vertices without z. *)
Definition footprint (ring : list V3) : list P2 :=
  map (fun p => (vx p, vy p)) ring.

(** The footprint covers [(x, y)] and [z] lies in the closed band that starts
    at the z of the ring's first vertex and is [height] tall. *)
Definition collides (b : Building) (x y z : Qc) : Prop :=
  exists ring first ht,
    bounding_volume b = Some ring /\
    hd_error ring = Some first /\
    height b = Some ht /\
    covers (footprint ring) (x, y) = true /\
    vz first <= z /\ z <= vz first + ht.

(** The ring of the worked example, at ground level 0, 10 tall. *)
Definition square_ring : list V3 :=
  [ (qz (-1), qz (-1), 0); (1, qz (-1), 0); (1, 1, 0); (qz (-1), 1, 0);
    (qz (-1), qz (-1), 0) ].

(** A building over an axis-parallel rectangle, flat at level [g]. *)
Definition rectangle_ring (x0 y0 x1 y1 g : Qc) : list V3 :=
  [ (x0, y0, g); (x1, y0, g); (x1, y1, g); (x0, y1, g); (x0, y0, g) ].

Definition square_building : Building :=
  mkBuilding "b1" (Some "tile.b3dm"%string) (Some "dir"%string)
             (Some (qz 10)) (Some square_ring).

End Collision.


(* ------------------------------------------------------------------ *)
(** ** Worked inputs *)

(** A printer of exact numbers for the worked examples: [num/den]. *)
Definition show_q (q : Qc) : string :=
  (NilZero.string_of_int (Z.to_int (Qnum q)) ++ "/"
   ++ NilZero.string_of_uint (Pos.to_uint (Qden q)))%string.

(** The box of half-size 1 around the origin. *)
Definition unit_box : Box :=
  mkBox (0, 0, 0) (1, 0, 0) (0, 1, 0) (0, 0, 1).

(** A column-major 4x4 translation. *)
Definition translation16 (tx ty tz : Qc) : list Qc :=
  [1; 0; 0; 0; 0; 1; 0; 0; 0; 0; 1; 0; tx; ty; tz; 1].

(** A leaf tile with the unit box and a [.b3dm] content. *)
Definition unit_leaf : Tile :=
  mkTile None (Some unit_box) (Some "a.b3dm"%string) "ADD" [].

(** The record the footprint walk makes of [unit_leaf]. *)
Definition unit_leaf_record : Core.BoundsInfo :=
  Core.mkBounds
    "POLYGON Z ((-1/1 -1/1 -1/1, 1/1 -1/1 -1/1, 1/1 1/1 -1/1, -1/1 1/1 -1/1, -1/1 -1/1 -1/1))"
    (Some "a.b3dm"%string) "ADD" "dir" (Some (qz 2)).

(** A leaf with a [.b3dm] content and no bounding volume. *)
Definition boxless_leaf : Tile :=
  mkTile None None (Some "a.b3dm"%string) "ADD" [].

(** A parent whose content is not a [.b3dm], above [unit_leaf]. *)
Definition json_parent : Tile :=
  mkTile None (Some unit_box) (Some "sub/tileset.json"%string) "ADD" [unit_leaf].

(** A root moved by (10, 0, 0) above a boxed leaf moved by (0, 5, 0). *)
Definition moved_leaf : Tile :=
  mkTile (Some (translation16 0 (qz 5) 0)) (Some unit_box)
         (Some "a.b3dm"%string) "ADD" [].

Definition moved_root : Tile :=
  mkTile (Some (translation16 (qz 10) 0 0)) None None "ADD" [moved_leaf].

(* ------------------------------------------------------------------ *)
(** ** Statements that are put to the test below *)

(** "A tile is persisted by the footprint walk if and only if it is a leaf
    and its content reference ends with .b3dm." *)
Definition persisted_iff_leaf_b3dm : Prop :=
  forall (fmt6 : Qc -> string) (dir : string) (root t : Tile) (m : Mat4),
    Core.visits root eye4 t m ->
    (Core.tile_bounds fmt6 dir t m <> []
     <-> children t = []
         /\ exists u, content_uri t = Some u /\ endswith u ".b3dm" = true).

(** Moving a point by [(tx, ty, tz)], and the matrix that does it. *)
Definition translate (tx ty tz : Qc) (p : V3) : V3 :=
  let '(x, y, z) := p in (x + tx, y + ty, z + tz).

Definition translation_matrix (tx ty tz : Qc) : Mat4 :=
  ((1, 0, 0, tx), (0, 1, 0, ty), (0, 0, 1, tz), (0, 0, 0, 1)).

(** A local transform of 7 numbers. *)
Definition seven : list Qc := [qz 1; qz 2; qz 3; 0; 0; 0; 0].

(** "A local transform that has at least 3 numbers but not 16 acts as the
    translation by its first three numbers", read on the core walk. *)
Definition malformed_transform_becomes_translation : Prop :=
  forall (a : list Qc) (m0 : Mat4),
    List.length a <> 16%nat -> (3 <= List.length a)%nat ->
    Core.current_transform_of m0 (Some a)
    = matmul m0 (translation_matrix (nth 0 a 0) (nth 1 a 0) (nth 2 a 0)).

(** The eight corners of [unit_box], each coordinate a one-element array. *)
Definition unit_corners : list V3 :=
  [ (qz (-1), qz (-1), qz (-1)); (qz 1, qz (-1), qz (-1));
    (qz 1, qz 1, qz (-1));       (qz (-1), qz 1, qz (-1));
    (qz (-1), qz (-1), qz 1);    (qz 1, qz (-1), qz 1);
    (qz 1, qz 1, qz 1);          (qz (-1), qz 1, qz 1) ].

Definition unit_raw : list Solid.RawPoint :=
  map (fun '(x, y, z) => (Solid.Arr [x], Solid.Arr [y], Solid.Arr [z])) unit_corners.

(** The text of one face, and the six rings of a box, by the face table. *)
Definition wrap_ring (ring : list string) : string :=
  ("((" ++ join ", " ring ++ "))")%string.

Definition six_rings (s : V3 -> string) (p0 p1 p2 p3 p4 p5 p6 p7 : V3)
  : list (list string) :=
  [ [s p0; s p1; s p2; s p3; s p0];
    [s p4; s p5; s p6; s p7; s p4];
    [s p0; s p1; s p5; s p4; s p0];
    [s p1; s p2; s p6; s p5; s p1];
    [s p2; s p3; s p7; s p6; s p2];
    [s p3; s p0; s p4; s p7; s p3] ].

(** A 4x4 matrix whose last row is zero: every point gets weight 0. *)
Definition weightless : list Qc :=
  [1; 0; 0; 0; 0; 1; 0; 0; 0; 0; 1; 0; 0; 0; 0; 0].

(** The quarter turn about the z axis, column-major: x -> y, y -> -x. *)
Definition quarter_turn : list Qc :=
  [0; 1; 0; 0; qz (-1); 0; 0; 0; 0; 0; 1; 0; 0; 0; 0; 1].

(** The flat positions of the diagonal of a column-major 4x4 matrix. *)
Definition on_diagonal (i : nat) : bool :=
  existsb (Nat.eqb i) [0; 5; 10; 15]%nat.

(** A box shrunk to a point, a leaf carrying it, and a root that has this
    leaf and [unit_leaf] as children. *)
Definition point_box : Box :=
  mkBox (0, 0, 0) (0, 0, 0) (0, 0, 0) (0, 0, 0).

Definition point_leaf : Tile :=
  mkTile None (Some point_box) (Some "bad.b3dm"%string) "ADD" [].

Definition mixed_root : Tile :=
  mkTile None None None "ADD" [point_leaf; unit_leaf].

(** "A tile whose projected corners are not pairwise distinct is skipped and
    the walk over the rest of the tree goes on to its end." *)
Definition degenerate_tile_is_skipped : Prop :=
  forall (fmt6 : Qc -> string) (loads : string -> bool) (dir pdir : string)
         (root t : Tile) (tt : list Qc),
    PoligonZ.visits root None t tt ->
    PoligonZ.degenerate t tt ->
    exists recs,
      PoligonZ.collect_tileset_bounds fmt6 loads dir pdir root = Returned recs.

(** A random source for worked examples: the state is a counter, a draw
    prints it. *)
Definition counter_uuid4 (n : nat) : string * nat :=
  (("uuid-" ++ NilZero.string_of_uint (Nat.to_uint n))%string, S n).

(** A stand-in for the digest in worked examples. *)
Definition toy_md5 (s : string) : string := ("md5:" ++ s)%string.

(** One building, as either footprint script hands it to the insert. *)
Definition one_building_core : Core.BoundsInfo :=
  Core.mkBounds "POLYGON Z ((0 0 0, 1 0 0, 1 1 0, 0 1 0, 0 0 0))"
                (Some "a.b3dm"%string) "ADD" "dir" (Some (qz 2)).

Definition one_building_single : SinglePoligon.BoundsInfo :=
  SinglePoligon.mkBounds "POLYGON Z ((0 0 0, 1 0 0, 1 1 0, 0 1 0, 0 0 0))"
                         (Some "a.b3dm"%string) "ADD" "dir" "p" (Some (qz 2)).

(* ------------------------------------------------------------------ *)
(** ** Further definitions: walks, inserts and helpers read off the scripts *)

(** The tiles of a tree in the order every walk meets them: a tile, then the
    subtrees of its children from first to last. *)
Fixpoint preorder (t : Tile) : list Tile :=
  t :: flat_map preorder (children t).

(** The test the core walk applies before it appends a record. *)
Definition core_persists (t : Tile) : bool :=
  match children t, bounding_volume t with
  | [], Some _ => Core.is_b3dm (content_uri t)
  | _, _ => false
  end.

(** [tile_shift t v]: the transform of [t] stands for the move by [v]: no
    transform (no move), or the column-major translation matrix of [v]. *)
Definition tile_shift (t : Tile) (v : V3) : Prop :=
  match transform t with
  | None => v = (0, 0, 0)
  | Some a => a = translation16 (vx v) (vy v) (vz v)
  end.

Definition v3_sum (vs : list V3) : V3 :=
  fold_right v3_add (0, 0, 0) vs.

(** [init_tileset] of the core module (lines 307-326), from the loaded
    tilesets on; finding the files and reading the JSON happen before.  It
    returns [all_building_bounds]; the rows are what it hands to the insert. *)
Definition core_init_tileset (fmt6 : Qc -> string) (md5 : string -> string)
           (Rng : Type) (uuid4 : Rng -> string * Rng)
           (tilesets : list (Tile * string)) (rng : Rng)
  : list Core.BoundsInfo * (list Core.DbRecord * Rng) :=
  let all_building_bounds :=
    flat_map (fun '(root_tile, tileset_dir) =>
                Core.collect_tileset_bounds fmt6 tileset_dir root_tile) tilesets in
  (all_building_bounds, Core.build_records md5 Rng uuid4 all_building_bounds rng).

(** The buildings for which the core insert falls back to [uuid4]. *)
Definition without_url (b : Core.BoundsInfo) : bool :=
  negb (truthy (Core.tile_url b)).

(** A tile at which [_recursive_collect] of 3DTilesParserSinglePoligon.py
    returns at once: it has a box, and its content reference is missing,
    empty, or fails the test of lines 121-128. *)
Definition single_blocked (is_path : Tile -> bool)
           (path_suffix : string -> string) (t : Tile) : bool :=
  match bounding_volume t with
  | Some _ =>
      match content_uri t with
      | Some u =>
          negb (truthy (Some u) && SinglePoligon.is_b3dm is_path path_suffix t u)
      | None => true
      end
  | None => false
  end.

(** The tiles that walk comes to and does not return from at once. *)
Fixpoint single_reached (is_path : Tile -> bool)
         (path_suffix : string -> string) (t : Tile) : list Tile :=
  if single_blocked is_path path_suffix t then []
  else t :: flat_map (single_reached is_path path_suffix) (children t).

(** A box whose half axes lie along x, y and z. *)
Definition aligned_box (cx cy cz hx hy hz : Qc) : Box :=
  mkBox (cx, cy, cz) (hx, 0, 0) (0, hy, 0) (0, 0, hz).

(** The number that [f"{v:.6f}"] writes and [ST_GeomFromEWKT] reads back:
    [v] rounded to six decimals, a tie going to the even last digit. *)
Definition round6 (v : Qc) : Qc :=
  let s := this (v * qz 1000000) in
  let n := Qnum s in
  let d := Zpos (Qden s) in
  let f := (n / d)%Z in
  let r2 := (2 * (n mod d))%Z in
  let k :=
    if (r2 <? d)%Z then f
    else if (d <? r2)%Z then (f + 1)%Z
         else if Z.even f then f else (f + 1)%Z in
  Q2Qc (k # 1000000).

Definition round6_point (p : V3) : V3 :=
  let '(x, y, z) := p in (round6 x, round6 y, round6 z).

(** The row of [dk_buildings] the core module stores for a box under the
    composed transform [m]: the ring travels to the store as the text of line
    137 and is read back by [ST_GeomFromEWKT], so every coordinate arrives
    rounded to six decimals; the height is handed over as a number. *)
Definition core_row (i : string) (u dir : option string) (box : Box) (m : Mat4)
  : Collision.Building :=
  Collision.mkBuilding i u dir (Core.box_height box)
    (Some (map round6_point
             (Core.bottom_ring
                (map (fun corner => Core._apply_transform corner m)
                     (Core.corners_local box))))).

(** The four sums [multiply] of the solid scripts forms for a point: the
    three numerators and the weight it divides them by. *)
Definition solid_xyz (matrix : list Qc) (p : V3) : V3 :=
  let '(x, y, z) := p in
  (Solid.at_ matrix 0 * x + Solid.at_ matrix 4 * y + Solid.at_ matrix 8 * z
   + Solid.at_ matrix 12 * 1,
   Solid.at_ matrix 1 * x + Solid.at_ matrix 5 * y + Solid.at_ matrix 9 * z
   + Solid.at_ matrix 13 * 1,
   Solid.at_ matrix 2 * x + Solid.at_ matrix 6 * y + Solid.at_ matrix 10 * z
   + Solid.at_ matrix 14 * 1).

Definition solid_weight (matrix : list Qc) (p : V3) : Qc :=
  let '(x, y, z) := p in
  Solid.at_ matrix 3 * x + Solid.at_ matrix 7 * y + Solid.at_ matrix 11 * z
  + Solid.at_ matrix 15 * 1.

(** A coordinate [clean_points] cannot take the first item of. *)
Definition empty_array (c : Solid.Coord) : bool :=
  match c with
  | Solid.Arr [] => true
  | _ => false
  end.

Definition plain_number (c : Solid.Coord) : bool :=
  match c with
  | Solid.Scalar _ => true
  | Solid.Arr _ => false
  end.

Definition any_coord (test : Solid.Coord -> bool) (p : Solid.RawPoint) : bool :=
  let '(p0, p1, p2) := p in test p0 || test p1 || test p2.

(** The three half lengths the solid scripts read from a box: [box[3]],
    [box[7]] and [box[11]]. *)
Definition half_lengths (box : Box) : Qc * Qc * Qc :=
  (vx (box_x_axis box), vy (box_y_axis box), vz (box_z_axis box)).

Definition no_zero_half_length (box : Box) : Prop :=
  let '(hx, hy, hz) := half_lengths box in hx <> 0 /\ hy <> 0 /\ hz <> 0.

(** A tileset none of whose tiles moves anything: every tile has no
    transform or the identity. *)
Definition untransformed (root : Tile) : Prop :=
  Forall (fun t => transform t = None
                   \/ transform t = Some PoligonZ.identity16)
         (preorder root).

Definition has_box (t : Tile) : bool :=
  match bounding_volume t with
  | Some _ => true
  | None => false
  end.

(** [tile.content_uri if (hasattr(tile, 'content_uri') and tile.content_uri)
    else None], the content reference the solid scripts put in a record. *)
Definition stored_url (t : Tile) : option string :=
  if truthy (content_uri t) then content_uri t else None.

(* ------------------------------------------------------------------ *)
(** ** parser/parse_tileset_test_update.py *)

Module ParseTileset.

(** One pass of the loop of [calculate_polygon_area]:
    [(x_i * y_j) - (x_j * y_i)]. *)
Definition shoelace_term (p_i p_j : V3) : Qc :=
  let '(x_i, y_i, _) := p_i in
  let '(x_j, y_j, _) := p_j in
  (x_i * y_j) - (x_j * y_i).

(** [calculate_polygon_area], lines 116-129. *)
Definition calculate_polygon_area (polygon : list V3) : Qc :=
  if (List.length polygon <? 3)%nat then 0
  else
    let n := List.length polygon in
    let area :=
      fold_left (fun area i =>
                   area + shoelace_term (nth i polygon (0, 0, 0))
                                        (nth ((i + 1) mod n) polygon (0, 0, 0)))
                (seq 0 n) 0 in
    Qcabs area / qz 2.

End ParseTileset.

Definition qsum (l : list Qc) : Qc := fold_right Qcplus 0 l.

(** The sum of the shoelace terms over the consecutive pairs of a list. *)
Fixpoint open_sum (l : list V3) : Qc :=
  match l with
  | a :: (b :: _) as r => ParseTileset.shoelace_term a b + open_sum r
  | _ => 0
  end.

(** The closed ring over the lower face of a box with centre [c] and half
    axes [u] and [v], as the scripts list it. *)
Definition parallelogram_ring (c u v w : V3) : list V3 :=
  [ v3_sub (v3_sub (v3_sub c u) v) w;
    v3_sub (v3_sub (v3_add c u) v) w;
    v3_sub (v3_add (v3_add c u) v) w;
    v3_sub (v3_add (v3_sub c u) v) w;
    v3_sub (v3_sub (v3_sub c u) v) w ].

(** The text [create_multipolygon_wkt] builds from eight points. *)
Definition multipolygon_text (fmt6 : Qc -> string)
           (p0 p1 p2 p3 p4 p5 p6 p7 : V3) : string :=
  ("MULTIPOLYGON Z ("
   ++ join ", " (map wrap_ring
                     (six_rings (PoligonZ.coord_str fmt6) p0 p1 p2 p3 p4 p5 p6 p7))
   ++ ")")%string.

(** What holds of the geometry a record of the MULTIPOLYGON Z walk carries,
    if it carries one. *)
Definition checked_geometry (fmt6 : Qc -> string) (loads : string -> bool)
           (r : PoligonZ.BoundsInfo) : Prop :=
  forall w,
    PoligonZ.to_ewkt r = Some w ->
    loads w = true
    /\ exists p0 p1 p2 p3 p4 p5 p6 p7,
         NoDup [p0; p1; p2; p3; p4; p5; p6; p7]
         /\ w = multipolygon_text fmt6 p0 p1 p2 p3 p4 p5 p6 p7.
(* ================================================================== *)
(** * Properties *)

(** ** Numbers and lists *)

Lemma Qcltb_true (a b : Qc) : Qcltb a b = true <-> a < b.
Proof.
  unfold Qcltb. destruct (Qclt_le_dec a b) as [H | H]; split; intro K; auto.
  - discriminate.
  - exfalso. exact (Qcle_not_lt _ _ H K).
Qed.

Lemma Qcleb_true (a b : Qc) : Qcleb a b = true <-> a <= b.
Proof.
  unfold Qcleb. destruct (Qclt_le_dec b a) as [H | H]; split; intro K; auto.
  - discriminate.
  - exfalso. exact (Qcle_not_lt _ _ K H).
Qed.

Lemma Qceqb_true (a b : Qc) : Qceqb a b = true <-> a = b.
Proof.
  unfold Qceqb. destruct (Qc_eq_dec a b); split; intro K; auto; discriminate.
Qed.

Lemma Qcltb_false (a b : Qc) : Qcltb a b = false <-> b <= a.
Proof.
  unfold Qcltb. destruct (Qclt_le_dec a b) as [H | H]; split; intro K; auto.
  - discriminate.
  - exfalso. exact (Qcle_not_lt _ _ K H).
Qed.

Lemma Qcleb_false (a b : Qc) : Qcleb a b = false <-> b < a.
Proof.
  unfold Qcleb. destruct (Qclt_le_dec b a) as [H | H]; split; intro K; auto.
  - discriminate.
  - exfalso. exact (Qcle_not_lt _ _ H K).
Qed.

Lemma Qceqb_false (a b : Qc) : Qceqb a b = false <-> a <> b.
Proof.
  unfold Qceqb. destruct (Qc_eq_dec a b); split; intro K; auto; try discriminate.
  contradiction.
Qed.

Lemma Qc_eq_Q (a b : Qc) : a = b <-> (a == b)%Q.
Proof. split; [intros ->; reflexivity | apply Qc_is_canon]. Qed.

(** Linear arithmetic over [Qc], through the underlying fractions. *)
Ltac qc_lra :=
  repeat match goal with
         | H : _ |- _ => setoid_rewrite Qc_eq_Q in H
         end;
  try setoid_rewrite Qc_eq_Q;
  unfold Qclt, Qcle, Qcminus, Qcdiv, Qcplus, Qcmult, Qcopp, Qcinv, qz, Q2Qc, inject_Z in *;
  cbn [this] in *;
  rewrite ?Qred_correct in *;
  lra.

(** ** The collision query *)

(** *** The cover test on rings *)

Lemma on_segment_spec (px py ax ay bx by_ : Qc) :
  Collision.on_segment (px, py) ((ax, ay), (bx, by_)) = true <->
  (bx - ax) * (py - ay) - (by_ - ay) * (px - ax) = 0
  /\ ((ax <= px /\ px <= bx) \/ (bx <= px /\ px <= ax))
  /\ ((ay <= py /\ py <= by_) \/ (by_ <= py /\ py <= ay)).
Proof.
  unfold Collision.on_segment.
  rewrite !andb_true_iff, Qceqb_true, !Qcleb_true.
  destruct (Qcltb ax bx) eqn:E1; destruct (Qcltb ay by_) eqn:E2;
    first [apply Qcltb_true in E1 | apply Qcltb_false in E1];
    first [apply Qcltb_true in E2 | apply Qcltb_false in E2];
    qc_lra.
Qed.

Lemma crosses_spec (px py ax ay bx by_ : Qc) :
  Collision.crosses (px, py) ((ax, ay), (bx, by_)) = true <->
  ((py < ay /\ by_ <= py) \/ (py < by_ /\ ay <= py))
  /\ px < (bx - ax) * (py - ay) / (by_ - ay) + ax.
Proof.
  unfold Collision.crosses.
  rewrite andb_true_iff, negb_true_iff, Qcltb_true.
  set (r := (bx - ax) * (py - ay) / (by_ - ay) + ax). clearbody r.
  destruct (Qcltb py ay) eqn:E1; destruct (Qcltb py by_) eqn:E2;
    first [apply Qcltb_true in E1 | apply Qcltb_false in E1];
    first [apply Qcltb_true in E2 | apply Qcltb_false in E2];
    cbn [Bool.eqb]; split; intros [A B]; split; auto; clear B;
    first [ discriminate
          | reflexivity
          | left; split; assumption
          | right; split; assumption
          | exfalso; destruct A as [[? ?] | [? ?]]; qc_lra ].
Qed.

Lemma crosses_level (p : Collision.P2) (ax bx c : Qc) :
  Collision.crosses p ((ax, c), (bx, c)) = false.
Proof.
  destruct p as [px py]. unfold Collision.crosses.
  now rewrite Bool.eqb_reflx.
Qed.

Lemma crosses_upright (px py a c d : Qc) :
  Collision.crosses (px, py) ((a, c), (a, d)) = true <->
  ((py < c /\ d <= py) \/ (py < d /\ c <= py)) /\ px < a.
Proof.
  rewrite crosses_spec.
  replace ((a - a) * (py - c) / (d - c) + a) with a by (unfold Qcdiv; ring).
  reflexivity.
Qed.

Lemma on_segment_level (px py a b c : Qc) :
  a <> b ->
  Collision.on_segment (px, py) ((a, c), (b, c)) = true <->
  py = c /\ ((a <= px /\ px <= b) \/ (b <= px /\ px <= a)).
Proof.
  intros Hab. rewrite on_segment_spec.
  replace ((b - a) * (py - c) - (c - c) * (px - a)) with ((b - a) * (py - c)) by ring.
  split.
  - intros (H & Hx & _). split; [| exact Hx].
    apply Qcmult_integral in H as [H | H]; [exfalso; apply Hab |]; qc_lra.
  - intros (-> & Hx). split; [ring |]. split; [exact Hx |].
    left. split; apply Qcle_refl.
Qed.

Lemma on_segment_upright (px py a c d : Qc) :
  c <> d ->
  Collision.on_segment (px, py) ((a, c), (a, d)) = true <->
  px = a /\ ((c <= py /\ py <= d) \/ (d <= py /\ py <= c)).
Proof.
  intros Hcd. rewrite on_segment_spec.
  replace ((a - a) * (py - c) - (d - c) * (px - a)) with ((c - d) * (px - a)) by ring.
  split.
  - intros (H & _ & Hy). split; [| exact Hy].
    apply Qcmult_integral in H as [H | H]; [exfalso; apply Hcd |]; qc_lra.
  - intros (-> & Hy). split; [ring |]. split; [| exact Hy].
    left. split; apply Qcle_refl.
Qed.

(** The ring of an axis-parallel rectangle covers exactly the closed
    rectangle. *)
Lemma covers_rectangle (x0 y0 x1 y1 x y : Qc) :
  x0 < x1 -> y0 < y1 ->
  Collision.covers [(x0, y0); (x1, y0); (x1, y1); (x0, y1); (x0, y0)] (x, y) = true
  <-> x0 <= x /\ x <= x1 /\ y0 <= y /\ y <= y1.
Proof.
  intros Hx Hy.
  assert (Hx' : x0 <> x1) by (intros ->; exact (Qclt_not_eq _ _ Hx eq_refl)).
  assert (Hy' : y0 <> y1) by (intros ->; exact (Qclt_not_eq _ _ Hy eq_refl)).
  unfold Collision.covers, Collision.edges.
  cbn [combine tl existsb filter].
  rewrite !crosses_level.
  rewrite !orb_true_iff.
  rewrite (on_segment_level x y x0 x1 y0) by exact Hx'.
  rewrite (on_segment_level x y x1 x0 y1) by (intro K; apply Hx'; now symmetry).
  rewrite (on_segment_upright x y x1 y0 y1) by exact Hy'.
  rewrite (on_segment_upright x y x0 y1 y0) by (intro K; apply Hy'; now symmetry).
  repeat match goal with
         | |- context [Collision.crosses ?p ?e] =>
             let C := fresh "C" in destruct (Collision.crosses p e) eqn:C
         end;
    cbn [List.length Nat.odd Nat.even negb];
    repeat match goal with
           | H : Collision.crosses _ _ = true |- _ => apply crosses_upright in H
           | H : Collision.crosses _ _ = false |- _ =>
               rewrite <- not_true_iff_false, crosses_upright in H
           end;
    qc_lra.
Qed.


Lemma sql_band_true (c : bool) (g z ht : Qc) :
  Collision.sql_and
    (Collision.sql_and (Some c) (Collision.sql_ge (Some z) (Some g)))
    (Collision.sql_le (Some z) (Collision.sql_plus (Some g) (Some ht))) = Some true
  <-> c = true /\ g <= z /\ z <= g + ht.
Proof.
  simpl. rewrite <- !Qcleb_true.
  destruct c, (Qcleb g z), (Qcleb z (g + ht)); simpl; intuition congruence.
Qed.

Lemma selected_iff (b : Collision.Building) (x y z : Qc) :
  Collision.selected x y z b = true <-> Collision.collides b x y z.
Proof.
  unfold Collision.selected, Collision.where_clause, Collision.ground_z_expr,
    Collision.collides.
  destruct b as [i u d h g]; simpl.
  destruct g as [[| first rest] |], h as [ht |]; simpl.
  all: try (split;
            [ repeat match goal with
                     | |- context [Collision.covers ?r ?p] =>
                         destruct (Collision.covers r p)
                     | |- context [Qcleb ?a ?b] => destruct (Qcleb a b)
                     end; simpl; discriminate
            | intros (r & f & t & E1 & E2 & E3 & _);
              try discriminate; inversion E1; subst; discriminate ]).
  change (Collision.ST_MakePoint x y) with (x, y).
  fold (Collision.footprint (first :: rest)).
  assert (K := sql_band_true
                 (Collision.covers (Collision.footprint (first :: rest)) (x, y))
                 (vz first) z ht).
  simpl in K.
  destruct (Collision.sql_and _ _) as [[|]|] eqn:E.
  - split; auto. intros _. destruct K as [K _]. specialize (K eq_refl).
    exists (first :: rest), first, ht. tauto.
  - split; [discriminate |]. intros (r & f & t & E1 & E2 & E3 & H).
    inversion E1; subst. inversion E2; subst. inversion E3; subst.
    destruct K as [_ K]. specialize (K H). discriminate.
  - split; [discriminate |]. intros (r & f & t & E1 & E2 & E3 & H).
    inversion E1; subst. inversion E2; subst. inversion E3; subst.
    destruct K as [_ K]. specialize (K H). discriminate.
Qed.

(** C1.  A stored record is returned by the collision query exactly when its
    footprint covers (x, y) and ground_z <= z <= ground_z + height, ground_z
    being the z of the first ring vertex; the result holds one row for every
    such record.  Over an axis-parallel rectangle this is the closed box
    x0 <= x <= x1, y0 <= y <= y1, g <= z <= g + h.  For the square ring at
    ground 0 with height 10, the points (0,0,5), (0,0,0) and (0,0,10) are
    hits, (0,0,15) and (2,2,5) are not. *)
Theorem C1_collision_query :
  (forall db x y z h,
      In h (Collision.check_collision_in_db db x y z) <->
      exists b, In b db /\ Collision.collides b x y z
                /\ h = Collision.select_list b)
  /\ (forall db x y z,
         List.length (Collision.check_collision_in_db db x y z)
         = List.length (filter (Collision.selected x y z) db))
  /\ (forall i u d x0 y0 x1 y1 g h x y z,
         x0 < x1 -> y0 < y1 ->
         Collision.selected x y z
           (Collision.mkBuilding i u d (Some h)
              (Some (Collision.rectangle_ring x0 y0 x1 y1 g))) = true
         <-> (x0 <= x /\ x <= x1 /\ y0 <= y /\ y <= y1)
             /\ g <= z /\ z <= g + h)
  /\ (let b := Collision.square_building in
      let hit := Collision.select_list b in
      Collision.hit_ground_z hit = Some 0
      /\ Collision.check_collision_in_db [b] 0 0 (qz 5) = [hit]
      /\ Collision.check_collision_in_db [b] 0 0 0 = [hit]
      /\ Collision.check_collision_in_db [b] 0 0 (qz 10) = [hit]
      /\ Collision.check_collision_in_db [b] 0 0 (qz 15) = []
      /\ Collision.check_collision_in_db [b] (qz 2) (qz 2) (qz 5) = []).
Proof.
  split; [| split; [| split]].
  - intros db x y z h. unfold Collision.check_collision_in_db.
    rewrite in_map_iff. split.
    + intros (b & E & Hin). apply filter_In in Hin as [Hin Hs].
      exists b. repeat split; auto. now apply selected_iff.
    + intros (b & Hin & Hc & E). exists b. split; auto.
      apply filter_In. split; auto. now apply selected_iff.
  - intros. unfold Collision.check_collision_in_db. now rewrite length_map.
  - intros i u d x0 y0 x1 y1 g h x y z Hx Hy.
    rewrite selected_iff, <- (covers_rectangle x0 y0 x1 y1 x y Hx Hy).
    unfold Collision.collides, Collision.rectangle_ring. cbn. split.
    + intros (ring & first & ht & [= <-] & [= <-] & [= <-] & Hc & Hz). auto.
    + intros (Hc & Hz). eexists _, _, _. repeat split; try reflexivity; tauto.
  - vm_compute. repeat split; reflexivity.
Qed.

(** ** The footprint walk of the core module *)

Ltac tuple_eq :=
  repeat match goal with
         | |- (_, _) = (_, _) => apply f_equal2
         end.

Lemma matmul_eye4_l (m : Mat4) : matmul eye4 m = m.
Proof.
  destruct m as [[[[[[a0 a1] a2] a3] [[[b0 b1] b2] b3]] [[[c0 c1] c2] c3]]
                   [[[d0 d1] d2] d3]].
  unfold matmul, eye4, dot4, col.
  tuple_eq; ring.
Qed.

Lemma matmul_eye4_r (m : Mat4) : matmul m eye4 = m.
Proof.
  destruct m as [[[[[[a0 a1] a2] a3] [[[b0 b1] b2] b3]] [[[c0 c1] c2] c3]]
                   [[[d0 d1] d2] d3]].
  unfold matmul, eye4, dot4, col.
  tuple_eq; ring.
Qed.

(** Projecting with [a @ b] is projecting with [b], then with [a], on
    homogeneous vectors. *)
Lemma matvec_matmul (a b : Mat4) (v : V4) :
  matvec (matmul a b) v = matvec a (matvec b v).
Proof.
  destruct a as [[[[[[a0 a1] a2] a3] [[[b0 b1] b2] b3]] [[[c0 c1] c2] c3]]
                   [[[d0 d1] d2] d3]].
  destruct b as [[[[[[e0 e1] e2] e3] [[[f0 f1] f2] f3]] [[[g0 g1] g2] g3]]
                   [[[h0 h1] h2] h3]].
  destruct v as [[[x y] z] w].
  unfold matvec, matmul, dot4, col.
  tuple_eq; ring.
Qed.

Lemma core_collect_iff fmt6 dir (root : Tile) :
  forall (m0 : Mat4) (r : Core.BoundsInfo),
    In r (Core._recursive_collect fmt6 dir root m0) <->
    exists t m, Core.visits root m0 t m /\ In r (Core.tile_bounds fmt6 dir t m).
Proof.
  induction root as [tr bv uri rf ch IH] using Tile_ind.
  intros m0 r. simpl Core._recursive_collect.
  rewrite in_app_iff, in_flat_map. split.
  - intros [H | (c & Hc & H)].
    + eexists _, _. split; [apply Core.visits_here | exact H].
    + rewrite Forall_forall in IH. apply (IH c Hc) in H as (t & m & Hv & Hr).
      exists t, m. split; auto.
      eapply Core.visits_child; [exact Hc | exact Hv].
  - intros (t & m & Hv & Hr).
    inversion Hv; subst.
    + left. exact Hr.
    + right. simpl in H. exists c. split; auto.
      rewrite Forall_forall in IH. apply (IH c H).
      exists t, m. split; auto.
Qed.

(** Python's [max] and [min] return a greatest and a least item. *)
Lemma fold_max_spec (r : list Qc) :
  forall x,
    let m := fold_left (fun m y => if Qcltb m y then y else m) r x in
    In m (x :: r) /\ forall y, In y (x :: r) -> y <= m.
Proof.
  induction r as [| a r IH]; intros x; simpl.
  - split; [now left |]. intros y [<- | []]. apply Qcle_refl.
  - destruct (Qcltb x a) eqn:E.
    + apply Qcltb_true in E. destruct (IH a) as [Hin Hle]. split.
      * right. exact Hin.
      * intros y [<- | Hy]; [| now apply Hle].
        apply Qcle_trans with a; [now apply Qclt_le_weak | apply Hle; now left].
    + assert (a <= x) as Hax.
      { apply Qcnot_lt_le. intro K. apply Qcltb_true in K. congruence. }
      destruct (IH x) as [Hin Hle]. split.
      * destruct Hin as [<- | Hin]; [now left | now right; right].
      * intros y [<- | [<- | Hy]].
        -- apply Hle; now left.
        -- apply Qcle_trans with x; [exact Hax | apply Hle; now left].
        -- apply Hle; now right.
Qed.

Lemma fold_min_spec (r : list Qc) :
  forall x,
    let m := fold_left (fun m y => if Qcltb y m then y else m) r x in
    In m (x :: r) /\ forall y, In y (x :: r) -> m <= y.
Proof.
  induction r as [| a r IH]; intros x; simpl.
  - split; [now left |]. intros y [<- | []]. apply Qcle_refl.
  - destruct (Qcltb a x) eqn:E.
    + apply Qcltb_true in E. destruct (IH a) as [Hin Hle]. split.
      * right. exact Hin.
      * intros y [<- | Hy]; [| now apply Hle].
        apply Qcle_trans with a; [apply Hle; now left | now apply Qclt_le_weak].
    + assert (x <= a) as Hax.
      { apply Qcnot_lt_le. intro K. apply Qcltb_true in K. congruence. }
      destruct (IH x) as [Hin Hle]. split.
      * destruct Hin as [<- | Hin]; [now left | now right; right].
      * intros y [<- | [<- | Hy]].
        -- apply Hle; now left.
        -- apply Qcle_trans with x; [apply Hle; now left | exact Hax].
        -- apply Hle; now right.
Qed.

Lemma py_max_spec (l : list Qc) (m : Qc) :
  py_max l = Some m -> In m l /\ forall y, In y l -> y <= m.
Proof.
  destruct l as [| x r]; [discriminate |]. simpl. intros [= <-].
  apply fold_max_spec.
Qed.

Lemma py_min_spec (l : list Qc) (m : Qc) :
  py_min l = Some m -> In m l /\ forall y, In y l -> m <= y.
Proof.
  destruct l as [| x r]; [discriminate |]. simpl. intros [= <-].
  apply fold_min_spec.
Qed.

(** What a leaf with a box and a [.b3dm] content contributes. *)
Lemma core_tile_bounds_inv fmt6 dir (t : Tile) (m : Mat4) (r : Core.BoundsInfo) :
  In r (Core.tile_bounds fmt6 dir t m) ->
  exists box u h,
    children t = [] /\ bounding_volume t = Some box /\
    content_uri t = Some u /\ Core.is_b3dm (Some u) = true /\
    Core.box_height box = Some h /\
    r = Core.mkBounds
          (Core.polygon_ewkt fmt6
             (Core.bottom_ring
                (map (fun corner => Core._apply_transform corner m)
                     (Core.corners_local box))))
          (Some u) (_refine t) dir (Some h).
Proof.
  unfold Core.tile_bounds.
  destruct (children t) as [| c cs]; [| intros []].
  destruct (bounding_volume t) as [box |]; [| intros []].
  destruct (Core.box_height box) as [h |] eqn:Eh; [| intros []].
  destruct (content_uri t) as [u |]; [| intros []].
  destruct (Core.is_b3dm (Some u)) eqn:Eb; [| intros []].
  intros [<- | []]. exists box, u, h. repeat split; auto.
Qed.

(** C3.  Every record of the footprint walk carries the ring made of the four
    bottom corners of its tile, projected with the tile's composed transform,
    followed by the first of them again (5 coordinates), and a height that is
    the greatest minus the least z among the 8 local (unprojected) corners. *)
Theorem C3_footprint_ring_and_height
        (fmt6 : Qc -> string) (dir : string) (root : Tile) (r : Core.BoundsInfo) :
  In r (Core.collect_tileset_bounds fmt6 dir root) ->
  exists t m box c0 c1 c2 c3 c4 c5 c6 c7 hi lo,
    Core.visits root eye4 t m /\ bounding_volume t = Some box /\
    Core.corners_local box = [c0; c1; c2; c3; c4; c5; c6; c7] /\
    (let w c := Core._apply_transform c m in
     let ring := [w c0; w c1; w c2; w c3; w c0] in
     List.length ring = 5%nat /\
     Core.to_ewkt r
     = ("POLYGON Z ((" ++ join ", " (map (Core.coord_str fmt6) ring) ++ "))")%string) /\
    (let zs := map vz [c0; c1; c2; c3; c4; c5; c6; c7] in
     Core.height r = Some (hi - lo) /\
     In hi zs /\ In lo zs /\ forall z, In z zs -> lo <= z /\ z <= hi).
Proof.
  unfold Core.collect_tileset_bounds. intros Hin.
  apply core_collect_iff in Hin as (t & m & Hv & Hr).
  apply core_tile_bounds_inv in Hr as (box & u & h & Hch & Hbv & Hu & Hb & Hh & ->).
  unfold Core.box_height in Hh.
  destruct (py_max _) as [hi |] eqn:Emax; [| discriminate].
  destruct (py_min _) as [lo |] eqn:Emin; [| discriminate].
  injection Hh as <-.
  apply py_max_spec in Emax as [Hhi Hmax].
  apply py_min_spec in Emin as [Hlo Hmin].
  unfold Core.corners_local in *.
  eexists t, m, box, _, _, _, _, _, _, _, _, hi, lo.
  split; [exact Hv |]. split; [exact Hbv |]. split; [reflexivity |].
  split; [split; reflexivity |].
  split; [reflexivity |]. split; [exact Hhi |]. split; [exact Hlo |].
  intros z Hz. split; [now apply Hmin | now apply Hmax].
Qed.

Lemma C3_footprint_ring_and_height_witness :
  In unit_leaf_record (Core.collect_tileset_bounds show_q "dir" unit_leaf)
  /\ exists t m box c0 c1 c2 c3 c4 c5 c6 c7 hi lo,
    Core.visits unit_leaf eye4 t m /\ bounding_volume t = Some box /\
    Core.corners_local box = [c0; c1; c2; c3; c4; c5; c6; c7] /\
    (let w c := Core._apply_transform c m in
     let ring := [w c0; w c1; w c2; w c3; w c0] in
     List.length ring = 5%nat /\
     Core.to_ewkt unit_leaf_record
     = ("POLYGON Z ((" ++ join ", " (map (Core.coord_str show_q) ring) ++ "))")%string) /\
    (let zs := map vz [c0; c1; c2; c3; c4; c5; c6; c7] in
     Core.height unit_leaf_record = Some (hi - lo) /\
     In hi zs /\ In lo zs /\ forall z, In z zs -> lo <= z /\ z <= hi).
Proof.
  assert (H : In unit_leaf_record (Core.collect_tileset_bounds show_q "dir" unit_leaf)).
  { vm_compute. left. reflexivity. }
  split; [exact H |].
  exact (C3_footprint_ring_and_height show_q "dir" unit_leaf unit_leaf_record H).
Defined.

(** ** Which tiles the footprint walk persists *)

Lemma core_box_height_some (box : Box) : exists h, Core.box_height box = Some h.
Proof.
  unfold Core.box_height, Core.corners_local, py_max, py_min.
  cbn [map]. eexists. reflexivity.
Qed.

Lemma core_is_b3dm_iff (u : string) :
  Core.is_b3dm (Some u) = true <-> endswith (lower u) ".b3dm" = true.
Proof.
  unfold Core.is_b3dm, truthy. destruct u as [| c r].
  - simpl. split; discriminate.
  - simpl andb. reflexivity.
Qed.

(** The tile's own contribution: one record when the tile is a leaf with a
    box whose content name ends, case-insensitively, with [.b3dm]; none
    otherwise. *)
Lemma core_tile_bounds_cases fmt6 dir (t : Tile) (m : Mat4) :
  (children t = [] /\ bounding_volume t <> None
   /\ exists u, content_uri t = Some u /\ endswith (lower u) ".b3dm" = true)
  /\ (exists r, Core.tile_bounds fmt6 dir t m = [r])
  \/
  ~ (children t = [] /\ bounding_volume t <> None
     /\ exists u, content_uri t = Some u /\ endswith (lower u) ".b3dm" = true)
  /\ Core.tile_bounds fmt6 dir t m = [].
Proof.
  unfold Core.tile_bounds.
  destruct (children t) as [| c cs].
  2: { right. split; auto. intros (K & _). discriminate. }
  destruct (bounding_volume t) as [box |].
  2: { right. split; auto. intros (_ & K & _). now apply K. }
  destruct (core_box_height_some box) as [h ->].
  destruct (content_uri t) as [u |].
  2: { right. split; auto. intros (_ & _ & u & K & _). discriminate. }
  destruct (Core.is_b3dm (Some u)) eqn:E.
  - left. apply core_is_b3dm_iff in E. split.
    + repeat split; [discriminate |]. exists u. auto.
    + eexists. reflexivity.
  - right. split; auto. intros (_ & _ & u' & [= <-] & K).
    apply core_is_b3dm_iff in K. congruence.
Qed.

(** [boxless_leaf] is a leaf with a .b3dm content that the walk does not
    persist. *)
Lemma C6_leaf_without_box_not_persisted : ~ persisted_iff_leaf_b3dm.
Proof.
  intros H.
  specialize (H show_q "dir"%string boxless_leaf boxless_leaf _
                (Core.visits_here boxless_leaf eye4)).
  destruct H as [_ H].
  apply H; [| reflexivity].
  split; [reflexivity |]. exists "a.b3dm"%string. split; reflexivity.
Qed.

(** C6 (amended).  The footprint walk of the core module persists a record
    for a tile exactly when the tile is a leaf, has a box, and its content
    name ends with [.b3dm] without regard to letter case; every tile of the
    tree is visited whatever its own outcome, and the result is the records
    of the visited tiles. *)
Theorem C6_footprint_filter (fmt6 : Qc -> string) (dir : string) :
  (forall root r,
      In r (Core.collect_tileset_bounds fmt6 dir root) <->
      exists t m, Core.visits root eye4 t m /\ In r (Core.tile_bounds fmt6 dir t m))
  /\ (forall t m,
         Core.tile_bounds fmt6 dir t m <> [] <->
         children t = [] /\ bounding_volume t <> None
         /\ exists u, content_uri t = Some u /\ endswith (lower u) ".b3dm" = true)
  /\ (forall t m, (List.length (Core.tile_bounds fmt6 dir t m) <= 1)%nat)
  /\ (forall t m0,
         Core._recursive_collect fmt6 dir t m0
         = Core.tile_bounds fmt6 dir t (Core.current_transform_of m0 (transform t))
           ++ flat_map (fun c => Core._recursive_collect fmt6 dir c
                                   (Core.current_transform_of m0 (transform t)))
                       (children t)).
Proof.
  split; [| split; [| split]].
  - intros root r. apply core_collect_iff.
  - intros t m.
    destruct (core_tile_bounds_cases fmt6 dir t m) as [[H [r E]] | [H E]];
      rewrite E; split; auto; try discriminate; intros K; contradiction.
  - intros t m.
    destruct (core_tile_bounds_cases fmt6 dir t m) as [[H [r E]] | [H E]];
      rewrite E; simpl; lia.
  - intros [tr bv uri rf ch] m0. reflexivity.
Qed.

(** The earlier footprint script leaves [_recursive_collect] at the first
    tile whose content is not a [.b3dm]: the leaf below [json_parent], whose
    content references are text, is never reached there, while the core walk
    persists it. *)
Lemma single_poligon_drops_children (path_suffix : string -> string) :
  SinglePoligon.collect_tileset_bounds show_q "dir" "p" (fun _ => false)
    path_suffix json_parent = []
  /\ List.length (Core.collect_tileset_bounds show_q "dir" json_parent) = 1%nat.
Proof. split; vm_compute; reflexivity. Qed.

(** ** Composition of transforms along the tree *)

Lemma core_current_transform_step (m0 : Mat4) (t : Tile) :
  Core.current_transform_of m0 (transform t)
  = match Core.local_matrix t with
    | Some l => matmul m0 l
    | None => m0
    end.
Proof.
  unfold Core.current_transform_of, Core.local_matrix.
  destruct (transform t) as [a |]; reflexivity.
Qed.

(** In the core walk the transform held at a tile is the product, from the
    root's parent transform on, of the local matrices along the chain that
    leads to the tile: each tile multiplies its own matrix on the right of
    what it inherits, and a tile without a (well-formed) transform passes
    on what it inherits. *)
Lemma core_visits_iff_path (root t : Tile) (m0 m : Mat4) :
  Core.visits root m0 t m <->
  exists p, Core.path root p t /\ m = Core.compose_along m0 p.
Proof.
  split.
  - induction 1 as [t m0 | t c t' m0 m' Hc Hv (p & Hp & ->)].
    + exists [t]. split; [constructor |].
      simpl. apply core_current_transform_step.
    + exists (t :: p). split; [eapply Core.path_child; eassumption |].
      simpl. now rewrite <- core_current_transform_step.
  - intros (p & Hp & ->). revert m0.
    induction Hp as [t | t c t' p Hc Hp IH]; intros m0.
    + simpl. rewrite <- core_current_transform_step. constructor.
    + simpl. rewrite <- core_current_transform_step.
      eapply Core.visits_child; [exact Hc | apply IH].
Qed.

(** The corners of a tile reached by the core walk are projected with that
    product; at the root the inherited matrix is the identity. *)
Lemma core_projects_with_composed_transform fmt6 dir (root : Tile) (r : Core.BoundsInfo) :
  In r (Core.collect_tileset_bounds fmt6 dir root) ->
  exists p t box,
    Core.path root p t /\ bounding_volume t = Some box /\
    Core.to_ewkt r
    = Core.polygon_ewkt fmt6
        (Core.bottom_ring
           (map (fun corner => Core._apply_transform corner (Core.compose_along eye4 p))
                (Core.corners_local box))).
Proof.
  intros Hin. apply core_collect_iff in Hin as (t & m & Hv & Hr).
  apply core_visits_iff_path in Hv as (p & Hp & ->).
  apply core_tile_bounds_inv in Hr as (box & u & h & _ & Hbv & _ & _ & _ & ->).
  exists p, t, box. auto.
Qed.

(** C2.  In 3DTilesParserMultiPath.py a tile that has a transform of its own
    projects its corners with that transform alone: below a root moved by
    (10, 0, 0), the leaf moved by (0, 5, 0) gets its corners at (+-1, 5+-1,
    +-1), where the product of the two matrices (what the core walk uses)
    puts them at (10+-1, 5+-1, +-1). *)
Theorem C2_multipath_discards_parent_transform :
  (forall t own inherited,
      transform t = Some own ->
      MultiPath.tile_transform_of t inherited = Some own)
  /\ MultiPath.tile_transform_of moved_leaf (Some (translation16 (qz 10) 0 0))
     = Some (translation16 0 (qz 5) 0)
  /\ MultiPath.world_points unit_box
       (MultiPath.tile_transform_of moved_leaf (Some (translation16 (qz 10) 0 0)))
     = Some [ (qz (-1), qz 4, qz (-1)); (qz 1, qz 4, qz (-1));
              (qz 1, qz 6, qz (-1));    (qz (-1), qz 6, qz (-1));
              (qz (-1), qz 4, qz 1);    (qz 1, qz 4, qz 1);
              (qz 1, qz 6, qz 1);       (qz (-1), qz 6, qz 1) ]
  /\ option_map (map MultiPath.to_ewkt)
       (MultiPath.collect_tileset_bounds show_q "dir" "p" moved_root None)
     = Some [ "POLYHEDRALSURFACE Z (((-1/1 4/1 -1/1, 1/1 4/1 -1/1, 1/1 6/1 -1/1, -1/1 6/1 -1/1, -1/1 4/1 -1/1)), ((-1/1 4/1 1/1, 1/1 4/1 1/1, 1/1 6/1 1/1, -1/1 6/1 1/1, -1/1 4/1 1/1)), ((-1/1 4/1 -1/1, 1/1 4/1 -1/1, 1/1 4/1 1/1, -1/1 4/1 1/1, -1/1 4/1 -1/1)), ((1/1 4/1 -1/1, 1/1 6/1 -1/1, 1/1 6/1 1/1, 1/1 4/1 1/1, 1/1 4/1 -1/1)), ((1/1 6/1 -1/1, -1/1 6/1 -1/1, -1/1 6/1 1/1, 1/1 6/1 1/1, 1/1 6/1 -1/1)), ((-1/1 6/1 -1/1, -1/1 4/1 -1/1, -1/1 4/1 1/1, -1/1 6/1 1/1, -1/1 6/1 -1/1)))"%string ]
  /\ map (fun c => Core._apply_transform c
                     (Core.compose_along eye4 [moved_root; moved_leaf]))
         (Core.corners_local unit_box)
     = [ (qz 9, qz 4, qz (-1));  (qz 11, qz 4, qz (-1));
         (qz 11, qz 6, qz (-1)); (qz 9, qz 6, qz (-1));
         (qz 9, qz 4, qz 1);     (qz 11, qz 4, qz 1);
         (qz 11, qz 6, qz 1);    (qz 9, qz 6, qz 1) ].
Proof.
  split.
  - intros t own inherited H. unfold MultiPath.tile_transform_of. now rewrite H.
  - repeat split; vm_compute; reflexivity.
Qed.

(** ** Transforms that do not have 16 numbers *)

Lemma py_div_one (v : Qc) : py_div v 1 = Some v.
Proof.
  unfold py_div. destruct (Qc_eq_dec 1 0) as [E | _].
  - exfalso. exact (Q_apart_0_1 E).
  - f_equal. field. exact Q_apart_0_1.
Qed.

Lemma traverse_total {A B : Type} (f : A -> option B) (g : A -> B) (l : list A) :
  (forall a, In a l -> f a = Some (g a)) -> traverse f l = Some (map g l).
Proof.
  induction l as [| a l IH]; intros H; simpl; [reflexivity |].
  rewrite (H a (or_introl eq_refl)), IH; [reflexivity |].
  intros b Hb. apply H. now right.
Qed.

(** [multiply] with an identity that carries a translation moves the point. *)
Lemma solid_multiply_translation (tx ty tz : Qc) (p : V3) :
  Solid.multiply [1; 0; 0; 0; 0; 1; 0; 0; 0; 0; 1; 0; tx; ty; tz; 1] p
  = Some (translate tx ty tz p).
Proof.
  destruct p as [[x y] z]. unfold Solid.multiply, Solid.at_, translate. simpl nth.
  replace (0 * x + 0 * y + 0 * z + 1 * 1) with 1 by ring.
  rewrite !py_div_one. apply f_equal. tuple_eq; ring.
Qed.

Lemma solid_repair_short (a : list Qc) :
  (List.length a < 16)%nat -> (3 <= List.length a)%nat ->
  Solid.repair a
  = [1; 0; 0; 0; 0; 1; 0; 0; 0; 0; 1; 0; nth 0 a 0; nth 1 a 0; nth 2 a 0; 1].
Proof.
  intros H16 H3. unfold Solid.repair.
  apply Nat.ltb_lt in H16. apply Nat.leb_le in H3. rewrite H16, H3. reflexivity.
Qed.

Lemma solid_repair_tiny (a : list Qc) :
  (List.length a < 3)%nat ->
  Solid.repair a = [1; 0; 0; 0; 0; 1; 0; 0; 0; 0; 1; 0; 0; 0; 0; 1].
Proof.
  intros H3. unfold Solid.repair.
  assert ((List.length a <? 16)%nat = true) as -> by (apply Nat.ltb_lt; lia).
  assert ((3 <=? List.length a)%nat = false) as -> by (apply Nat.leb_gt; lia).
  reflexivity.
Qed.

Lemma translate_zero (p : V3) : translate 0 0 0 p = p.
Proof. destruct p as [[x y] z]. unfold translate. tuple_eq; ring. Qed.

Lemma core_matrix_needs_16 (a : list Qc) :
  List.length a <> 16%nat -> Core._matrix_from_column_major a = None.
Proof.
  intros H. unfold Core._matrix_from_column_major.
  do 16 (destruct a as [| ? a]; [reflexivity |]).
  destruct a; [exfalso; apply H; reflexivity | reflexivity].
Qed.

(** The core walk keeps the identity where the claim wants the translation
    by (1, 2, 3). *)
Lemma C4_core_drops_seven_numbers : ~ malformed_transform_becomes_translation.
Proof.
  intros H. specialize (H seven eye4).
  assert (E : Core.current_transform_of eye4 (Some seven)
              = matmul eye4 (translation_matrix (nth 0 seven 0) (nth 1 seven 0)
                                                (nth 2 seven 0))).
  { apply H; simpl; lia. }
  apply (f_equal (fun m : Mat4 => let '((_, _, _, x), _, _, _) := m in Qceqb x 0)) in E.
  vm_compute in E. discriminate.
Qed.

(** C4 (amended).  A transform list whose element count [n] is not 16:
    [apply_transform] of the solid scripts applies it, when 3 <= n < 16, as
    the translation by its first three numbers, and when n < 3 as the
    identity, returning normally in both cases; the core walk drops it and
    goes on with the parent transform, visiting the tile and its children as
    usual. *)
Theorem C4_malformed_transform
        (a : list Qc) (pts : list V3) (m0 : Mat4)
        (fmt6 : Qc -> string) (dir : string) (t : Tile) :
  List.length a <> 16%nat ->
  ((List.length a < 16)%nat -> (3 <= List.length a)%nat ->
   Solid.apply_transform pts a
   = Some (map (translate (nth 0 a 0) (nth 1 a 0) (nth 2 a 0)) pts))
  /\ ((List.length a < 3)%nat -> Solid.apply_transform pts a = Some pts)
  /\ Core.current_transform_of m0 (Some a) = m0
  /\ (transform t = Some a ->
      Core._recursive_collect fmt6 dir t m0
      = Core.tile_bounds fmt6 dir t m0
        ++ flat_map (fun c => Core._recursive_collect fmt6 dir c m0) (children t)).
Proof.
  intros Hlen.
  assert (Hcur : Core.current_transform_of m0 (Some a) = m0).
  { unfold Core.current_transform_of. now rewrite core_matrix_needs_16. }
  split; [| split; [| split]].
  - intros H16 H3. unfold Solid.apply_transform.
    rewrite solid_repair_short by assumption.
    apply traverse_total. intros p _. apply solid_multiply_translation.
  - intros H3. unfold Solid.apply_transform. rewrite solid_repair_tiny by assumption.
    rewrite (traverse_total _ (translate 0 0 0)).
    + f_equal. rewrite <- (map_id pts) at 2. apply map_ext. apply translate_zero.
    + intros p _. apply solid_multiply_translation.
  - exact Hcur.
  - intros Ht. destruct t as [tr bv uri rf ch]. simpl in Ht. subst tr.
    cbn [Core._recursive_collect transform children]. rewrite Hcur. reflexivity.
Qed.

Lemma C4_malformed_transform_witness :
  List.length seven <> 16%nat
  /\ Solid.apply_transform [(0, 0, 0)] seven = Some [(qz 1, qz 2, qz 3)]
  /\ Core.current_transform_of eye4 (Some seven) = eye4.
Proof.
  assert (H : List.length seven <> 16%nat) by (simpl; lia).
  split; [exact H |].
  destruct (C4_malformed_transform seven [(0, 0, 0)] eye4 show_q "dir"%string
              unit_leaf H) as (K1 & _ & K3 & _).
  split; [| exact K3].
  rewrite K1 by (simpl; lia). vm_compute. reflexivity.
Defined.

(** ** The solid literal *)

(** Corners given as arrays are read by their first item; plain numbers are
    read as they are by the MultiPath script. *)
Lemma parser3d_clean_points_arrays (l : list ((Qc * list Qc) * (Qc * list Qc) * (Qc * list Qc))) :
  Parser3D.clean_points
    (map (fun '((x, xs), (y, ys), (z, zs)) =>
            (Solid.Arr (x :: xs), Solid.Arr (y :: ys), Solid.Arr (z :: zs))) l)
  = Some (map (fun '((x, _), (y, _), (z, _)) => (x, y, z)) l).
Proof.
  unfold Parser3D.clean_points.
  induction l as [| [[[x xs] [y ys]] [z zs]] l IH]; simpl; [reflexivity |].
  now rewrite IH.
Qed.

Lemma multipath_clean_points_scalars (pts : list V3) :
  MultiPath.clean_points (map Solid.raw_of pts) = Some pts.
Proof.
  unfold MultiPath.clean_points.
  induction pts as [| [[x y] z] l IH]; simpl; [reflexivity |].
  now rewrite IH.
Qed.

(** On corners whose coordinates are arrays, [create_polyhedron_wkt] of
    3DTilesParser.py returns one literal holding exactly six rings, each in
    its own double bracket; the rings take the corners by the table
    [0,1,2,3], [4,5,6,7], [0,1,5,4], [1,2,6,5], [2,3,7,6], [3,0,4,7], and each
    ends with the coordinate string it starts with. *)
Lemma parser3d_wkt_of_cleaned_corners
      (fmt : Qc -> string) (raw : list Solid.RawPoint)
      (p0 p1 p2 p3 p4 p5 p6 p7 : V3) :
  Parser3D.clean_points raw = Some [p0; p1; p2; p3; p4; p5; p6; p7] ->
  let rings := six_rings (Solid.coord_str fmt) p0 p1 p2 p3 p4 p5 p6 p7 in
  Parser3D.create_polyhedron_wkt fmt raw
  = Some ("POLYHEDRALSURFACE Z (" ++ join ", " (map wrap_ring rings) ++ ")")%string
  /\ List.length rings = 6%nat
  /\ Forall (fun ring => List.length ring = 5%nat
                         /\ hd_error ring = Some (last ring EmptyString)) rings.
Proof.
  intros Hclean rings. unfold Parser3D.create_polyhedron_wkt. rewrite Hclean.
  split; [reflexivity |]. split; [reflexivity |].
  unfold rings, six_rings. repeat constructor.
Qed.

Lemma parser3d_wkt_of_unit_arrays :
  Parser3D.clean_points unit_raw = Some unit_corners
  /\ Parser3D.create_polyhedron_wkt show_q unit_raw
     = Some "POLYHEDRALSURFACE Z (((-1/1 -1/1 -1/1, 1/1 -1/1 -1/1, 1/1 1/1 -1/1, -1/1 1/1 -1/1, -1/1 -1/1 -1/1)), ((-1/1 -1/1 1/1, 1/1 -1/1 1/1, 1/1 1/1 1/1, -1/1 1/1 1/1, -1/1 -1/1 1/1)), ((-1/1 -1/1 -1/1, 1/1 -1/1 -1/1, 1/1 -1/1 1/1, -1/1 -1/1 1/1, -1/1 -1/1 -1/1)), ((1/1 -1/1 -1/1, 1/1 1/1 -1/1, 1/1 1/1 1/1, 1/1 -1/1 1/1, 1/1 -1/1 -1/1)), ((1/1 1/1 -1/1, -1/1 1/1 -1/1, -1/1 1/1 1/1, 1/1 1/1 1/1, 1/1 1/1 -1/1)), ((-1/1 1/1 -1/1, -1/1 -1/1 -1/1, -1/1 -1/1 1/1, -1/1 1/1 1/1, -1/1 1/1 -1/1)))"%string.
Proof.
  assert (H : Parser3D.clean_points unit_raw = Some unit_corners) by reflexivity.
  split; [exact H |].
  destruct (parser3d_wkt_of_cleaned_corners show_q unit_raw _ _ _ _ _ _ _ _ H)
    as (K & _).
  rewrite K. vm_compute. reflexivity.
Qed.

(** C5.  On eight corners given as plain numbers, the format its docstring
    names, [create_polyhedron_wkt] of 3DTilesParser.py raises: [clean_points]
    subscripts every coordinate ([p[0][0]]).  No literal is produced, so
    there are no six face rings.  [create_polyhedron_wkt] of
    3DTilesParserMultiPath.py, whose [clean_points] tests for a number first,
    returns on the same corners the literal of the six closed rings taken by
    the table [0,1,2,3], [4,5,6,7], [0,1,5,4], [1,2,6,5], [2,3,7,6],
    [3,0,4,7]. *)
Theorem C5_plain_number_corners_raise
        (fmt : Qc -> string) (p0 p1 p2 p3 p4 p5 p6 p7 : V3) :
  let corners := [p0; p1; p2; p3; p4; p5; p6; p7] in
  let rings := six_rings (Solid.coord_str fmt) p0 p1 p2 p3 p4 p5 p6 p7 in
  Parser3D.create_polyhedron_wkt fmt (map Solid.raw_of corners) = None
  /\ MultiPath.create_polyhedron_wkt fmt (map Solid.raw_of corners)
     = Some ("POLYHEDRALSURFACE Z (" ++ join ", " (map wrap_ring rings) ++ ")")%string
  /\ List.length rings = 6%nat
  /\ Forall (fun ring => List.length ring = 5%nat
                         /\ hd_error ring = Some (last ring EmptyString)) rings.
Proof.
  intros corners rings. split; [| split; [| split]].
  - unfold corners. destruct p0 as [[x y] z]. reflexivity.
  - unfold MultiPath.create_polyhedron_wkt.
    rewrite multipath_clean_points_scalars. reflexivity.
  - reflexivity.
  - unfold rings, six_rings. repeat constructor.
Qed.

(** ** The perspective divide *)

Lemma eps_pos : 0 < eps.
Proof. apply Qcltb_true. vm_compute. reflexivity. Qed.

(** The divisor [multiply] of 3DTilesParserPoligonZ.py ends up with: the
    weight itself when its magnitude is at least [1e-10], else [1e-10]. *)
Lemma poligonz_divisor_guard (w : Qc) :
  (Qcabs w < eps -> PoligonZ.divisor_of w = eps)
  /\ (eps <= Qcabs w -> PoligonZ.divisor_of w = w)
  /\ eps <= Qcabs (PoligonZ.divisor_of w)
  /\ PoligonZ.divisor_of w <> 0.
Proof.
  assert (Habs : Qcabs eps = eps).
  { apply Qcabs_pos. apply Qclt_le_weak. exact eps_pos. }
  assert (Hnz : forall d, eps <= Qcabs d -> d <> 0).
  { intros d Hd ->. apply (Qcle_not_lt _ _ Hd). exact eps_pos. }
  unfold PoligonZ.divisor_of. destruct (Qcltb (Qcabs w) eps) eqn:E.
  - apply Qcltb_true in E. repeat split; auto.
    + intros K. exfalso. exact (Qcle_not_lt _ _ K E).
    + rewrite Habs. apply Qcle_refl.
    + apply Hnz. rewrite Habs. apply Qcle_refl.
  - assert (K : eps <= Qcabs w).
    { apply Qcnot_lt_le. intro L. apply Qcltb_true in L. congruence. }
    repeat split; auto.
    intros L. exfalso. exact (Qcle_not_lt _ _ K L).
Qed.

(** With that guard [multiply] never meets a zero divisor. *)
Lemma poligonz_multiply_returns (matrix : list Qc) (p : V3) :
  exists q, PoligonZ.multiply matrix p = Some q.
Proof.
  destruct p as [[x y] z]. unfold PoligonZ.multiply.
  destruct (poligonz_divisor_guard (PoligonZ.w_new_of matrix (x, y, z)))
    as (_ & _ & _ & Hnz).
  unfold py_div.
  destruct (Qc_eq_dec (PoligonZ.divisor_of (PoligonZ.w_new_of matrix (x, y, z))) 0)
    as [E | _]; [contradiction |].
  eexists. reflexivity.
Qed.

Lemma poligonz_apply_transform_returns (points : list V3) (m : list Qc) :
  exists out, PoligonZ.apply_transform points m = Some out
              /\ List.length out = List.length points.
Proof.
  unfold PoligonZ.apply_transform.
  induction points as [| p ps (out & E & L)]; simpl.
  - exists []. auto.
  - destruct (poligonz_multiply_returns (PoligonZ.flat_matrix_of m) p) as [q ->].
    rewrite E. exists (q :: out). simpl. auto.
Qed.

(** C7.  [multiply] of 3DTilesParser.py (the same text is in
    3DTilesParserMultiPath.py) divides by the weight as it comes: with a
    16-number matrix whose last row is zero the weight of (1, 2, 3) is 0 and
    the division fails, where [multiply] of 3DTilesParserPoligonZ.py divides
    by 1e-10. *)
Theorem C7_unguarded_multiply_divides_by_zero :
  (forall m x y z,
      Solid.at_ m 3 * x + Solid.at_ m 7 * y + Solid.at_ m 11 * z
      + Solid.at_ m 15 * 1 = 0 ->
      Solid.multiply m (x, y, z) = None)
  /\ List.length weightless = 16%nat
  /\ Solid.repair weightless = weightless
  /\ Solid.multiply weightless (qz 1, qz 2, qz 3) = None
  /\ Solid.apply_transform [(qz 1, qz 2, qz 3)] weightless = None
  /\ PoligonZ.w_new_of weightless (qz 1, qz 2, qz 3) = 0
  /\ PoligonZ.multiply weightless (qz 1, qz 2, qz 3)
     = Some (qz 10000000000, qz 20000000000, qz 30000000000).
Proof.
  split.
  - intros m x y z H. unfold Solid.multiply. rewrite H.
    unfold py_div. destruct (Qc_eq_dec 0 0) as [_ | K]; [reflexivity | now elim K].
  - repeat split; vm_compute; reflexivity.
Qed.

(** ** The matrix the MULTIPOLYGON Z script multiplies with *)

Lemma set_at_length (i : nat) (v : Qc) (l : list Qc) :
  List.length (PoligonZ.set_at i v l) = List.length l.
Proof.
  revert i. induction l as [| x l IH]; intros [| i]; simpl; auto.
Qed.

Lemma set_at_nth_same (i : nat) (v d : Qc) (l : list Qc) :
  (i < List.length l)%nat -> nth i (PoligonZ.set_at i v l) d = v.
Proof.
  revert i. induction l as [| x l IH]; intros [| i] H; simpl in *; try lia; auto.
  apply IH. lia.
Qed.

Lemma set_at_nth_other (i j : nat) (v d : Qc) (l : list Qc) :
  i <> j -> nth i (PoligonZ.set_at j v l) d = nth i l d.
Proof.
  revert i j. induction l as [| x l IH]; intros [| i] [| j] H; simpl; auto.
  contradiction.
Qed.

Lemma pad16_length (m : list Qc) : List.length (PoligonZ.pad16 m) = 16%nat.
Proof.
  unfold PoligonZ.pad16. rewrite length_app, repeat_length, length_firstn. lia.
Qed.

Lemma pad16_nth (m : list Qc) (i : nat) :
  (i < 16)%nat -> nth i (PoligonZ.pad16 m) 0 = nth i m 0.
Proof.
  intros Hi. unfold PoligonZ.pad16.
  destruct (Nat.lt_ge_cases i (List.length (firstn 16 m))) as [H | H].
  - rewrite app_nth1 by exact H.
    rewrite <- (firstn_skipn 16 m) at 2. now rewrite app_nth1 by exact H.
  - rewrite app_nth2 by exact H.
    rewrite length_firstn in H.
    rewrite (nth_overflow m) by lia.
    apply nth_repeat.
Qed.

Lemma default_one_length (j : nat) (l : list Qc) :
  List.length (PoligonZ.default_one j l) = List.length l.
Proof.
  unfold PoligonZ.default_one. destruct (Qceqb _ _); auto using set_at_length.
Qed.

Lemma default_one_at (j i : nat) (l : list Qc) :
  (j < List.length l)%nat ->
  PoligonZ.at_ (PoligonZ.default_one j l) i
  = if (i =? j)%nat
    then (if Qceqb (PoligonZ.at_ l j) 0 then 1 else PoligonZ.at_ l j)
    else PoligonZ.at_ l i.
Proof.
  intros Hj. unfold PoligonZ.default_one, PoligonZ.at_.
  destruct (Nat.eqb_spec i j) as [-> | Hne].
  - destruct (Qceqb (nth j l 0) 0); [now apply set_at_nth_same | reflexivity].
  - destruct (Qceqb (nth j l 0) 0); [now apply set_at_nth_other | reflexivity].
Qed.

(** Entry [i] of the matrix used: the given one (0 past the end of the
    list), except that a diagonal entry equal to 0 is read as 1. *)
Lemma flat_matrix_of_at (m : list Qc) (i : nat) :
  (i < 16)%nat ->
  PoligonZ.at_ (PoligonZ.flat_matrix_of m) i
  = if on_diagonal i && Qceqb (nth i m 0) 0 then 1 else nth i m 0.
Proof.
  intros Hi. unfold PoligonZ.flat_matrix_of.
  rewrite !default_one_at
    by (rewrite ?default_one_length, pad16_length; lia).
  unfold PoligonZ.at_. rewrite !pad16_nth by lia.
  unfold on_diagonal. cbn [existsb].
  destruct (Nat.eqb_spec i 15) as [-> | H15]; [cbn; now destruct (Qceqb _ _) |].
  destruct (Nat.eqb_spec i 10) as [-> | H10]; [cbn; now destruct (Qceqb _ _) |].
  destruct (Nat.eqb_spec i 5) as [-> | H5]; [cbn; now destruct (Qceqb _ _) |].
  destruct (Nat.eqb_spec i 0) as [-> | H0]; [cbn; now destruct (Qceqb _ _) |].
  reflexivity.
Qed.

(** C10.  [apply_transform] of 3DTilesParserPoligonZ.py multiplies every
    point with the matrix in which each entry at flat position 0, 5, 10 or 15
    that equals 0 has been replaced by 1, also when the input already has 16
    numbers.  The quarter turn about z, whose positions 0 and 5 are 0, sends
    (1, 0, 0) to (1, 1, 0) there, not to (0, 1, 0). *)
Theorem C10_zero_diagonal_entries_become_one :
  (forall (points : list V3) (m : list Qc),
      PoligonZ.apply_transform points m
      = traverse (PoligonZ.multiply (PoligonZ.flat_matrix_of m)) points)
  /\ (forall m, List.length (PoligonZ.flat_matrix_of m) = 16%nat)
  /\ (forall m i, (i < 16)%nat ->
                  PoligonZ.at_ (PoligonZ.flat_matrix_of m) i
                  = if on_diagonal i && Qceqb (nth i m 0) 0 then 1 else nth i m 0)
  /\ List.length quarter_turn = 16%nat
  /\ PoligonZ.flat_matrix_of quarter_turn
     = [1; 1; 0; 0; qz (-1); 1; 0; 0; 0; 0; 1; 0; 0; 0; 0; 1]
  /\ PoligonZ.apply_transform [(1, 0, 0)] quarter_turn = Some [(1, 1, 0)]
  /\ Solid.apply_transform [(1, 0, 0)] quarter_turn = Some [(0, 1, 0)].
Proof.
  split; [reflexivity |].
  split.
  { intros m. unfold PoligonZ.flat_matrix_of.
    rewrite !default_one_length. apply pad16_length. }
  split; [exact flat_matrix_of_at |].
  repeat split; vm_compute; reflexivity.
Qed.

(** ** The duplicate-point assertion *)

Lemma nodup_length_le (l : list V3) :
  (List.length (nodup V3_eq_dec l) <= List.length l)%nat.
Proof.
  induction l as [| a l IH]; simpl; [lia |].
  destruct (in_dec V3_eq_dec a l); simpl; lia.
Qed.

(** The test of line 113 holds exactly for pairwise distinct points. *)
Lemma all_unique_iff (points : list V3) :
  PoligonZ.all_unique points = true <-> NoDup points.
Proof.
  unfold PoligonZ.all_unique. rewrite Nat.eqb_eq. split.
  - induction points as [| a l IH]; simpl; intros H; [constructor |].
    destruct (in_dec V3_eq_dec a l) as [Hin | Hnin].
    + pose proof (nodup_length_le l). lia.
    + simpl in H. constructor; [exact Hnin | apply IH; lia].
  - intros H. now rewrite nodup_fixed_point.
Qed.

Lemma poligonz_tile_bounds_cases fmt6 loads dir pdir (t : Tile) (tt : list Qc) :
  (PoligonZ.degenerate t tt
   /\ PoligonZ.tile_bounds fmt6 loads dir pdir t tt = Raised AssertionError)
  \/ (~ PoligonZ.degenerate t tt
      /\ exists own, PoligonZ.tile_bounds fmt6 loads dir pdir t tt = Returned own).
Proof.
  unfold PoligonZ.tile_bounds, PoligonZ.degenerate.
  destruct (bounding_volume t) as [box |].
  2: { right. split; [| eexists; reflexivity].
       intros (b & pts & K & _). discriminate. }
  destruct (poligonz_apply_transform_returns (PoligonZ.local_points box) tt)
    as (pts & Ep & _).
  rewrite Ep.
  destruct (PoligonZ.all_unique pts) eqn:E.
  - right. split; [| eexists; reflexivity].
    intros (b & pts' & E1 & E2 & K). injection E1 as <-.
    rewrite Ep in E2. injection E2 as <-. apply K. now apply all_unique_iff.
  - left. split; [| reflexivity].
    exists box, pts. split; [reflexivity |]. split; [exact Ep |].
    intros K. apply all_unique_iff in K. congruence.
Qed.

Lemma extend_all_raises {A : Type} (visit : Tile -> Outcome (list A))
      (cs : list Tile) (c : Tile) (e : Exn) :
  In c cs -> visit c = Raised e ->
  (forall c' e', In c' cs -> visit c' = Raised e' -> e' = e) ->
  forall acc, extend_all visit cs acc = Raised e.
Proof.
  induction cs as [| x cs IH]; intros Hin Hc Hall acc; [destruct Hin |].
  simpl. destruct (visit x) as [more | e'] eqn:Ex.
  - destruct Hin as [-> | Hin]; [congruence |].
    apply IH; auto. intros c' e'' Hc' He. apply (Hall c' e''); auto. now right.
  - f_equal. apply (Hall x e'); auto. now left.
Qed.

Lemma extend_all_returns {A : Type} (visit : Tile -> Outcome (list A))
      (cs : list Tile) :
  (forall c, In c cs -> exists more, visit c = Returned more) ->
  forall acc, exists out, extend_all visit cs acc = Returned out.
Proof.
  induction cs as [| x cs IH]; intros Hall acc; simpl; [eexists; reflexivity |].
  destruct (Hall x (or_introl eq_refl)) as [more ->].
  apply IH. intros c Hc. apply Hall. now right.
Qed.

(** The only exception the walk can raise is the failed assertion. *)
Lemma poligonz_raises_assertion_only fmt6 loads dir pdir (t : Tile) :
  forall cur e,
    PoligonZ._recursive_collect fmt6 loads dir pdir t cur = Raised e ->
    e = AssertionError.
Proof.
  induction t as [tr bv uri rf ch IH] using Tile_ind. intros cur e.
  cbn [PoligonZ._recursive_collect children].
  set (tt := PoligonZ.tile_transform_of _ cur).
  destruct (poligonz_tile_bounds_cases fmt6 loads dir pdir
              (mkTile tr bv uri rf ch) tt) as [[_ ->] | [_ [own ->]]].
  - now intros [= <-].
  - generalize own. clear own.
    induction ch as [| c ch IHch]; intros own; simpl; [discriminate |].
    inversion IH as [| ? ? Hc Hrest]; subst.
    destruct (PoligonZ._recursive_collect fmt6 loads dir pdir c (Some tt))
      as [more | e'] eqn:Ec.
    + apply IHch. exact Hrest.
    + intros [= <-]. eapply Hc. exact Ec.
Qed.

(** A repeated projected point anywhere in the tree ends the whole walk with
    the assertion failure. *)
Lemma poligonz_degenerate_aborts fmt6 loads dir pdir (root t : Tile)
      (cur : option (list Qc)) (tt : list Qc) :
  PoligonZ.visits root cur t tt ->
  PoligonZ.degenerate t tt ->
  PoligonZ._recursive_collect fmt6 loads dir pdir root cur = Raised AssertionError.
Proof.
  induction 1 as [t cur | t c t' cur tt Hc Hv IH]; intros Hd.
  - destruct t as [tr bv uri rf ch].
    cbn [PoligonZ._recursive_collect children].
    destruct (poligonz_tile_bounds_cases fmt6 loads dir pdir
                (mkTile tr bv uri rf ch)
                (PoligonZ.tile_transform_of (mkTile tr bv uri rf ch) cur))
      as [[_ ->] | [K _]]; [reflexivity | contradiction].
  - specialize (IH Hd). destruct t as [tr bv uri rf ch].
    cbn [PoligonZ._recursive_collect children]. cbn [children] in Hc.
    destruct (poligonz_tile_bounds_cases fmt6 loads dir pdir
                (mkTile tr bv uri rf ch)
                (PoligonZ.tile_transform_of (mkTile tr bv uri rf ch) cur))
      as [[_ ->] | [_ [own ->]]]; [reflexivity |].
    eapply extend_all_raises; [exact Hc | exact IH |].
    intros c' e' _ He. eapply poligonz_raises_assertion_only. exact He.
Qed.

(** Without any such tile the walk returns. *)
Lemma poligonz_sound_tree_returns fmt6 loads dir pdir (root : Tile) :
  forall cur,
    (forall t tt, PoligonZ.visits root cur t tt -> ~ PoligonZ.degenerate t tt) ->
    exists recs,
      PoligonZ._recursive_collect fmt6 loads dir pdir root cur = Returned recs.
Proof.
  induction root as [tr bv uri rf ch IH] using Tile_ind. intros cur Hok.
  cbn [PoligonZ._recursive_collect children].
  set (root := mkTile tr bv uri rf ch) in *.
  destruct (poligonz_tile_bounds_cases fmt6 loads dir pdir root
              (PoligonZ.tile_transform_of root cur)) as [[K _] | [_ [own ->]]].
  - exfalso. apply (Hok root _ (PoligonZ.visits_here root cur)). exact K.
  - apply extend_all_returns. intros c Hc.
    rewrite Forall_forall in IH. apply (IH c Hc).
    intros t tt Hv. apply Hok. eapply PoligonZ.visits_child; [exact Hc | exact Hv].
Qed.

(** Below [mixed_root] the leaf shrunk to a point makes the walk raise; the
    leaf next to it is never reached. *)
Lemma C8_point_box_aborts_the_walk : ~ degenerate_tile_is_skipped.
Proof.
  intros H.
  destruct (H show_q (fun _ => true) "dir"%string "p"%string
              mixed_root point_leaf PoligonZ.identity16) as [recs E].
  - eapply PoligonZ.visits_child; [left; reflexivity |].
    apply (PoligonZ.visits_here point_leaf (Some PoligonZ.identity16)).
  - destruct (poligonz_apply_transform_returns
                (PoligonZ.local_points point_box) PoligonZ.identity16)
      as (pts & Ep & _).
    exists point_box, pts. split; [reflexivity |]. split; [exact Ep |].
    intros K. apply all_unique_iff in K.
    assert (F : option_map PoligonZ.all_unique
                  (PoligonZ.apply_transform (PoligonZ.local_points point_box)
                                            PoligonZ.identity16) = Some false)
      by (vm_compute; reflexivity).
    rewrite Ep in F. simpl in F. congruence.
  - assert (F : PoligonZ.collect_tileset_bounds show_q (fun _ => true)
                  "dir" "p" mixed_root = Raised AssertionError)
      by (vm_compute; reflexivity).
    congruence.
Qed.

(** C8 (amended).  A tile whose 8 projected points are not pairwise distinct
    makes the assertion of line 114 fail: the walk over its tileset ends
    there with AssertionError and returns no records.  A tileset without
    such a tile is walked to its end. *)
Theorem C8_repeated_corner_aborts_the_walk
        (fmt6 : Qc -> string) (loads : string -> bool) (dir pdir : string)
        (root : Tile) :
  (forall t tt,
      PoligonZ.visits root None t tt -> PoligonZ.degenerate t tt ->
      PoligonZ.collect_tileset_bounds fmt6 loads dir pdir root
      = Raised AssertionError)
  /\ ((forall t tt, PoligonZ.visits root None t tt -> ~ PoligonZ.degenerate t tt) ->
      exists recs,
        PoligonZ.collect_tileset_bounds fmt6 loads dir pdir root = Returned recs).
Proof.
  split.
  - intros t tt Hv Hd. eapply poligonz_degenerate_aborts; eassumption.
  - apply poligonz_sound_tree_returns.
Qed.

(** ** Record identifiers *)

(** In the core module the identifier of a record with a content reference
    is the digest of that reference: it does not depend on the random source,
    and the source is left untouched. *)
Lemma core_record_id_of_url {Rng : Type} (md5 : string -> string)
      (uuid4 : Rng -> string * Rng) (u : string) (rng : Rng) :
  truthy (Some u) = true ->
  Core.record_id md5 Rng uuid4 (Some u) rng = (md5 u, rng).
Proof. intros H. unfold Core.record_id. now rewrite H. Qed.

Lemma core_record_id_fallback {Rng : Type} (md5 : string -> string)
      (uuid4 : Rng -> string * Rng) (rng : Rng) :
  Core.record_id md5 Rng uuid4 None rng = uuid4 rng.
Proof. reflexivity. Qed.

Lemma core_tile_url_of_some (b : Core.BoundsInfo) (u : string) :
  Core.tile_url_of b = Some u -> truthy (Some u) = true.
Proof.
  unfold Core.tile_url_of. destruct (truthy (Core.tile_url b)) eqn:E; [| discriminate].
  intros K. now rewrite K in E.
Qed.

(** Every row built by the core insert from a building with a content
    reference carries the digest of that reference, in any run. *)
Lemma core_build_records_ids {Rng : Type} (md5 : string -> string)
      (uuid4 : Rng -> string * Rng) (building_data : list Core.BoundsInfo) :
  forall rng,
    Forall2 (fun b r => Core.rec_tile_url r = Core.tile_url_of b
                        /\ forall u, Core.tile_url_of b = Some u ->
                                     Core.rec_id r = md5 u)
            building_data
            (fst (Core.build_records md5 Rng uuid4 building_data rng)).
Proof.
  induction building_data as [| b rest IH]; intros rng; simpl; [constructor |].
  destruct (Core.record_id md5 Rng uuid4 (Core.tile_url_of b) rng) as [i rng1] eqn:Ei.
  specialize (IH rng1).
  destruct (Core.build_records md5 Rng uuid4 rest rng1) as [records rng2].
  simpl in *. constructor; [| exact IH].
  simpl. split; [reflexivity |]. intros u Hu.
  rewrite Hu in Ei. rewrite core_record_id_of_url in Ei.
  - now injection Ei as <- _.
  - eapply core_tile_url_of_some. exact Hu.
Qed.

(** C9.  The insert of 3DTilesParserSinglePoligon.py gives every row a fresh
    random identifier, content reference or not: the same building ingested
    in two runs gets two identifiers, where the insert of the core module
    gives it the digest of its reference both times. *)
Theorem C9_single_poligon_ids_are_random :
  (forall (Rng : Type) (uuid4 : Rng -> string * Rng) (rng : Rng)
          (b : SinglePoligon.BoundsInfo),
      map SinglePoligon.rec_id
          (fst (SinglePoligon.build_records Rng uuid4 [b] rng))
      = [fst (uuid4 rng)])
  /\ map SinglePoligon.rec_id
         (fst (SinglePoligon.build_records nat counter_uuid4 [one_building_single] 0%nat))
     = ["uuid-0"%string]
  /\ map SinglePoligon.rec_id
         (fst (SinglePoligon.build_records nat counter_uuid4 [one_building_single] 1%nat))
     = ["uuid-1"%string]
  /\ map Core.rec_id
         (fst (Core.build_records toy_md5 nat counter_uuid4 [one_building_core] 0%nat))
     = ["md5:a.b3dm"%string]
  /\ map Core.rec_id
         (fst (Core.build_records toy_md5 nat counter_uuid4 [one_building_core] 1%nat))
     = ["md5:a.b3dm"%string].
Proof.
  split.
  - intros Rng uuid4 rng b. simpl. destruct (uuid4 rng) as [i rng1]. reflexivity.
  - repeat split; vm_compute; reflexivity.
Qed.

(* ================================================================== *)
(** * Further properties of the scripts *)

(** ** Height of a box in the core module *)

(** A greatest (least) item is what Python's [max] ([min]) returns. *)
Lemma py_max_unique (l : list Qc) (m : Qc) :
  In m l -> (forall y, In y l -> y <= m) -> py_max l = Some m.
Proof.
  intros Hin Hub. destruct l as [| x r]; [destruct Hin |].
  destruct (py_max (x :: r)) as [m' |] eqn:E; [| discriminate].
  apply py_max_spec in E as [Hin' Hub'].
  f_equal. apply Qcle_antisym; auto.
Qed.

Lemma py_min_unique (l : list Qc) (m : Qc) :
  In m l -> (forall y, In y l -> m <= y) -> py_min l = Some m.
Proof.
  intros Hin Hlb. destruct l as [| x r]; [destruct Hin |].
  destruct (py_min (x :: r)) as [m' |] eqn:E; [| discriminate].
  apply py_min_spec in E as [Hin' Hlb'].
  f_equal. apply Qcle_antisym; auto.
Qed.

Lemma Qcabs_cases (a : Qc) : (0 <= a /\ Qcabs a = a) \/ (a <= 0 /\ Qcabs a = - a).
Proof.
  destruct (Qclt_le_dec a 0) as [H | H].
  - right. split; [now apply Qclt_le_weak |]. apply Qcabs_neg. now apply Qclt_le_weak.
  - left. split; [exact H |]. now apply Qcabs_pos.
Qed.

Ltac pick_in := first [left; solve [ring] | right; pick_in].

Ltac bound_all :=
  intros ? Hy; cbn [In] in Hy;
  repeat match goal with
         | H : _ \/ _ |- _ => destruct H as [H | H]
         end;
  try contradiction; subst; qc_lra.

Lemma z_values_max (c a b d : Qc) :
  py_max [c - a - b - d; c + a - b - d; c + a + b - d; c - a + b - d;
          c - a - b + d; c + a - b + d; c + a + b + d; c - a + b + d]
  = Some (c + (Qcabs a + Qcabs b + Qcabs d)).
Proof.
  apply py_max_unique;
    destruct (Qcabs_cases a) as [[Ha ->] | [Ha ->]];
    destruct (Qcabs_cases b) as [[Hb ->] | [Hb ->]];
    destruct (Qcabs_cases d) as [[Hd ->] | [Hd ->]];
    first [pick_in | bound_all].
Qed.

Lemma z_values_min (c a b d : Qc) :
  py_min [c - a - b - d; c + a - b - d; c + a + b - d; c - a + b - d;
          c - a - b + d; c + a - b + d; c + a + b + d; c - a + b + d]
  = Some (c - (Qcabs a + Qcabs b + Qcabs d)).
Proof.
  apply py_min_unique;
    destruct (Qcabs_cases a) as [[Ha ->] | [Ha ->]];
    destruct (Qcabs_cases b) as [[Hb ->] | [Hb ->]];
    destruct (Qcabs_cases d) as [[Hd ->] | [Hd ->]];
    first [pick_in | bound_all].
Qed.

(** X1.  The height the core walk stores for a box is twice the sum of the
    absolute z components of its three half axes; it is never negative. *)
Theorem X1_core_height_closed_form (box : Box) :
  Core.box_height box
  = Some (qz 2 * (Qcabs (vz (box_x_axis box)) + Qcabs (vz (box_y_axis box))
                  + Qcabs (vz (box_z_axis box))))
  /\ forall h, Core.box_height box = Some h -> 0 <= h.
Proof.
  assert (E : Core.box_height box
              = Some (qz 2 * (Qcabs (vz (box_x_axis box)) + Qcabs (vz (box_y_axis box))
                              + Qcabs (vz (box_z_axis box))))).
  { destruct box as [[[cx cy] cz] [[xx xy] xz] [[yx yy] yz] [[zx zy] zz]].
    unfold Core.box_height, Core.corners_local.
    cbn [box_center box_x_axis box_y_axis box_z_axis map vz v3_sub v3_add snd fst].
    rewrite z_values_max, z_values_min. f_equal.
    set (s := Qcabs xz + Qcabs yz + Qcabs zz). clearbody s. qc_lra. }
  split; [exact E |].
  intros h Hh. rewrite E in Hh. injection Hh as <-.
  pose proof (Qcabs_nonneg (vz (box_x_axis box))).
  pose proof (Qcabs_nonneg (vz (box_y_axis box))).
  pose proof (Qcabs_nonneg (vz (box_z_axis box))).
  set (a := Qcabs _) in *. set (b := Qcabs (vz (box_y_axis box))) in *.
  set (c := Qcabs (vz (box_z_axis box))) in *. clearbody a b c. qc_lra.
Qed.

(** ** Order and number of the records of the core walk *)

Lemma flat_map_ext_in {A B : Type} (f g : A -> list B) (l : list A) :
  (forall a, In a l -> f a = g a) -> flat_map f l = flat_map g l.
Proof.
  induction l as [| a l IH]; intros H; simpl; [reflexivity |].
  rewrite (H a (or_introl eq_refl)), IH; [reflexivity |].
  intros b Hb. apply H. now right.
Qed.

Lemma map_flat_map {A B C : Type} (f : B -> C) (g : A -> list B) (l : list A) :
  map f (flat_map g l) = flat_map (fun a => map f (g a)) l.
Proof.
  induction l as [| a l IH]; simpl; [reflexivity |].
  now rewrite map_app, IH.
Qed.

Lemma filter_flat_map {A B : Type} (p : B -> bool) (g : A -> list B) (l : list A) :
  filter p (flat_map g l) = flat_map (fun a => filter p (g a)) l.
Proof.
  induction l as [| a l IH]; simpl; [reflexivity |].
  now rewrite filter_app, IH.
Qed.

Lemma core_tile_bounds_fields fmt6 dir (t : Tile) (m : Mat4) :
  map (fun r => (Core.tile_url r, Core.refine r, Core.tileset_dir r))
      (Core.tile_bounds fmt6 dir t m)
  = if core_persists t then [(content_uri t, _refine t, dir)] else [].
Proof.
  unfold Core.tile_bounds, core_persists.
  destruct (children t) as [| c cs]; [| reflexivity].
  destruct (bounding_volume t) as [box |]; [| reflexivity].
  destruct (core_box_height_some box) as [h ->].
  destruct (content_uri t) as [u |]; [| reflexivity].
  destruct (Core.is_b3dm (Some u)); reflexivity.
Qed.

(** X2.  The core walk returns its records in the order in which it meets the
    tiles (a tile before its subtrees, children from first to last), one for
    each leaf with a box and a [.b3dm] content and none for any other tile;
    each record carries the content reference and refine mode of its tile and
    the directory of the tileset. *)
Theorem X2_core_records_follow_preorder
        (fmt6 : Qc -> string) (dir : string) (root : Tile) :
  map (fun r => (Core.tile_url r, Core.refine r, Core.tileset_dir r))
      (Core.collect_tileset_bounds fmt6 dir root)
  = map (fun t => (content_uri t, _refine t, dir))
        (filter core_persists (preorder root)).
Proof.
  unfold Core.collect_tileset_bounds. generalize eye4.
  induction root as [tr bv uri rf ch IH] using Tile_ind. intros m0.
  cbn [Core._recursive_collect preorder children filter].
  rewrite map_app, core_tile_bounds_fields, map_flat_map.
  rewrite Forall_forall in IH.
  rewrite (flat_map_ext_in _
             (fun c => map (fun t => (content_uri t, _refine t, dir))
                           (filter core_persists (preorder c)))) by (intros c Hc; now apply IH).
  rewrite <- map_flat_map, <- filter_flat_map.
  destruct (core_persists (mkTile tr bv uri rf ch)); reflexivity.
Qed.

(** ** Translations along a chain of tiles *)

Lemma matmul_translations (a b c x y z : Qc) :
  matmul (translation_matrix a b c) (translation_matrix x y z)
  = translation_matrix (a + x) (b + y) (c + z).
Proof. unfold matmul, translation_matrix, dot4, col. tuple_eq; ring. Qed.

Lemma core_apply_translation (a b c : Qc) (p : V3) :
  Core._apply_transform p (translation_matrix a b c) = translate a b c p.
Proof.
  destruct p as [[x y] z].
  unfold Core._apply_transform, translation_matrix, matvec, dot4, translate.
  tuple_eq; ring.
Qed.

Lemma core_compose_translations (p : list Tile) (vs : list V3) :
  Forall2 tile_shift p vs ->
  forall a b c,
    Core.compose_along (translation_matrix a b c) p
    = translation_matrix (a + vx (v3_sum vs)) (b + vy (v3_sum vs)) (c + vz (v3_sum vs)).
Proof.
  induction 1 as [| t v p vs Ht Hrest IH]; intros a b c.
  - cbn. unfold translation_matrix. tuple_eq; ring.
  - cbn [Core.compose_along fold_left]. fold (Core.compose_along).
    unfold tile_shift in Ht. unfold Core.local_matrix.
    destruct (transform t) as [arr |].
    + subst arr. cbn [translation16 Core._matrix_from_column_major].
      fold (translation_matrix (vx v) (vy v) (vz v)).
      rewrite matmul_translations.
      change (fold_left _ p ?m) with (Core.compose_along m p).
      rewrite IH. destruct v as [[x y] z], (v3_sum vs) as [[sx sy] sz] eqn:Es.
      cbn [v3_sum fold_right] . fold (v3_sum vs). rewrite Es.
      cbn [v3_add vx vy vz fst snd]. unfold translation_matrix. tuple_eq; ring.
    + subst v.
      change (fold_left _ p ?m) with (Core.compose_along m p).
      rewrite IH. destruct (v3_sum vs) as [[sx sy] sz] eqn:Es.
      cbn [v3_sum fold_right]. fold (v3_sum vs). rewrite Es.
      cbn [v3_add vx vy vz fst snd]. unfold translation_matrix. tuple_eq; ring.
Qed.

(** X3.  When every tile on the chain from the root to a tile either has no
    transform or has the 16-number translation matrix of some vector, the core
    walk holds at that tile the translation by the sum of these vectors, and
    projecting a corner adds that sum to it. *)
Theorem X3_core_translations_add_up
        (root t : Tile) (p : list Tile) (vs : list V3) :
  Core.path root p t ->
  Forall2 tile_shift p vs ->
  let s := v3_sum vs in
  Core.visits root eye4 t (translation_matrix (vx s) (vy s) (vz s))
  /\ forall corner,
      Core._apply_transform corner (Core.compose_along eye4 p)
      = translate (vx s) (vy s) (vz s) corner.
Proof.
  intros Hp Hs s.
  assert (E : Core.compose_along eye4 p = translation_matrix (vx s) (vy s) (vz s)).
  { subst s. change eye4 with (translation_matrix 0 0 0).
    rewrite (core_compose_translations p vs Hs). unfold translation_matrix.
    tuple_eq; ring. }
  split.
  - apply core_visits_iff_path. exists p. split; [exact Hp | now symmetry].
  - intros corner. rewrite E. apply core_apply_translation.
Qed.

Lemma X3_core_translations_add_up_witness :
  Core.path moved_root [moved_root; moved_leaf] moved_leaf
  /\ Forall2 tile_shift [moved_root; moved_leaf] [(qz 10, 0, 0); (0, qz 5, 0)]
  /\ Core._apply_transform (qz 1, qz 1, qz 1)
       (Core.compose_along eye4 [moved_root; moved_leaf])
     = (qz 11, qz 6, qz 1).
Proof.
  assert (Hp : Core.path moved_root [moved_root; moved_leaf] moved_leaf).
  { eapply Core.path_child; [left; reflexivity | apply Core.path_here]. }
  assert (Hs : Forall2 tile_shift [moved_root; moved_leaf]
                 [(qz 10, 0, 0); (0, qz 5, 0)]).
  { repeat constructor. }
  split; [exact Hp |]. split; [exact Hs |].
  destruct (X3_core_translations_add_up moved_root moved_leaf _ _ Hp Hs) as [_ K].
  rewrite K. vm_compute. reflexivity.
Defined.

(** ** The rows of the core insert *)

Lemma core_build_records_cons {Rng : Type} (md5 : string -> string)
      (uuid4 : Rng -> string * Rng) (b : Core.BoundsInfo)
      (rest : list Core.BoundsInfo) (rng : Rng) :
  Core.build_records md5 Rng uuid4 (b :: rest) rng
  = let ir := Core.record_id md5 Rng uuid4 (Core.tile_url_of b) rng in
    let rr := Core.build_records md5 Rng uuid4 rest (snd ir) in
    (Core.mkDbRecord (fst ir) "Building" (Core.tile_url_of b)
                     ("SRID=4978;" ++ Core.to_ewkt b)%string (Core.refine b)
                     (Core.tileset_dir b) (Core.height b) :: fst rr, snd rr).
Proof.
  cbn [Core.build_records].
  destruct (Core.record_id md5 Rng uuid4 (Core.tile_url_of b) rng) as [i rng1].
  cbn [fst snd].
  destruct (Core.build_records md5 Rng uuid4 rest rng1) as [records rng2].
  reflexivity.
Qed.

Lemma core_record_id_rng {Rng : Type} (md5 : string -> string)
      (uuid4 : Rng -> string * Rng) (b : Core.BoundsInfo) (rng : Rng) :
  snd (Core.record_id md5 Rng uuid4 (Core.tile_url_of b) rng)
  = if without_url b then snd (uuid4 rng) else rng.
Proof.
  unfold Core.record_id, Core.tile_url_of, without_url.
  destruct (truthy (Core.tile_url b)) eqn:E; cbn [negb].
  - destruct (Core.tile_url b) as [u |]; [| discriminate]. now rewrite E.
  - reflexivity.
Qed.

(** X4.  The core insert builds one row per building, in order; a row keeps
    the building's refine mode, directory and height, has the name "Building"
    and the geometry text prefixed with "SRID=4978;", and an empty content
    reference is stored as NULL.  The random source is drawn from once for
    each building without a content reference and not otherwise. *)
Theorem X4_core_insert_rows
        (Rng : Type) (md5 : string -> string) (uuid4 : Rng -> string * Rng)
        (building_data : list Core.BoundsInfo) (rng : Rng) :
  Forall2 (fun b r =>
             Core.rec_name r = "Building"%string
             /\ Core.rec_ewkt r = ("SRID=4978;" ++ Core.to_ewkt b)%string
             /\ Core.rec_tile_url r
                = (if without_url b then None else Core.tile_url b)
             /\ Core.rec_refine r = Core.refine b
             /\ Core.rec_properties r = Core.tileset_dir b
             /\ Core.rec_height r = Core.height b)
          building_data
          (fst (Core.build_records md5 Rng uuid4 building_data rng))
  /\ snd (Core.build_records md5 Rng uuid4 building_data rng)
     = Nat.iter (List.length (filter without_url building_data))
                (fun r => snd (uuid4 r)) rng.
Proof.
  revert rng. induction building_data as [| b rest IH]; intros rng.
  - split; [constructor | reflexivity].
  - rewrite core_build_records_cons. cbn [fst snd].
    destruct (IH (snd (Core.record_id md5 Rng uuid4 (Core.tile_url_of b) rng)))
      as [IH1 IH2].
    split.
    + constructor; [| exact IH1]. cbn.
      unfold Core.tile_url_of, without_url.
      destruct (truthy (Core.tile_url b)); cbn; auto 10.
    + rewrite IH2, core_record_id_rng. cbn [filter].
      destruct (without_url b); [| reflexivity].
      cbn [List.length]. now rewrite Nat.iter_succ_r.
Qed.

(** ** From the walk to the rows: [init_tileset] of the core module *)

Lemma core_is_b3dm_truthy (u : string) :
  Core.is_b3dm (Some u) = true -> truthy (Some u) = true.
Proof.
  unfold Core.is_b3dm. intros H. now apply andb_true_iff in H as [H _].
Qed.

Lemma core_collect_has_url fmt6 dir (root : Tile) (r : Core.BoundsInfo) :
  In r (Core.collect_tileset_bounds fmt6 dir root) ->
  exists u, Core.tile_url r = Some u /\ truthy (Some u) = true
            /\ endswith (lower u) ".b3dm" = true.
Proof.
  intros Hin. apply core_collect_iff in Hin as (t & m & _ & Hr).
  apply core_tile_bounds_inv in Hr as (box & u & h & _ & _ & _ & Hb & _ & ->).
  exists u. split; [reflexivity |]. split.
  - now apply core_is_b3dm_truthy.
  - now apply core_is_b3dm_iff.
Qed.

Lemma core_build_records_with_urls {Rng : Type} (md5 : string -> string)
      (uuid4 : Rng -> string * Rng) (building_data : list Core.BoundsInfo) :
  Forall (fun b => exists u, Core.tile_url b = Some u /\ truthy (Some u) = true)
         building_data ->
  forall rng,
    snd (Core.build_records md5 Rng uuid4 building_data rng) = rng
    /\ Forall2 (fun b r => exists u, Core.tile_url b = Some u
                                     /\ Core.rec_tile_url r = Some u
                                     /\ Core.rec_id r = md5 u)
               building_data
               (fst (Core.build_records md5 Rng uuid4 building_data rng)).
Proof.
  induction 1 as [| b rest Hb Hrest IH]; intros rng.
  - split; [reflexivity | constructor].
  - destruct Hb as (u & Hu & Ht).
    rewrite core_build_records_cons. cbn [fst snd].
    assert (Eu : Core.tile_url_of b = Some u).
    { unfold Core.tile_url_of. now rewrite Hu, Ht. }
    rewrite Eu, (core_record_id_of_url md5 uuid4 u rng Ht). cbn [fst snd].
    destruct (IH rng) as [IH1 IH2]. split; [exact IH1 |].
    constructor; [| exact IH2]. exists u. cbn. auto.
Qed.

Lemma Forall2_with_left {A B : Type} (P : A -> Prop) (R : A -> B -> Prop)
      (l : list A) (l' : list B) :
  Forall P l -> Forall2 R l l' -> Forall2 (fun a b => P a /\ R a b) l l'.
Proof.
  intros HP HR. induction HR as [| a b l l' Hab HR IH]; [constructor |].
  inversion HP; subst. constructor; auto.
Qed.

Lemma Forall2_map_eq {A B C : Type} (f : B -> C) (g : A -> C)
      (l : list A) (l' : list B) :
  Forall2 (fun a b => f b = g a) l l' -> map f l' = map g l.
Proof.
  induction 1 as [| a b l l' Hab HR IH]; [reflexivity |].
  cbn [map]. now rewrite Hab, IH.
Qed.

(** X5.  In [init_tileset] of the core module every row handed to the insert
    comes from a tile with a [.b3dm] content reference, so its identifier is
    the digest of that reference: the random source is never drawn from, and
    running the ingestion again over the same tilesets gives the same
    identifiers whatever the state of the random source. *)
Theorem X5_core_init_tileset_ids
        (fmt6 : Qc -> string) (md5 : string -> string)
        (Rng : Type) (uuid4 : Rng -> string * Rng)
        (tilesets : list (Tile * string)) (rng rng' : Rng) :
  let run := core_init_tileset fmt6 md5 Rng uuid4 tilesets rng in
  let run' := core_init_tileset fmt6 md5 Rng uuid4 tilesets rng' in
  snd (snd run) = rng
  /\ Forall2 (fun b r => exists u, Core.tile_url b = Some u
                                   /\ endswith (lower u) ".b3dm" = true
                                   /\ Core.rec_tile_url r = Some u
                                   /\ Core.rec_id r = md5 u)
             (fst run) (fst (snd run))
  /\ map Core.rec_id (fst (snd run)) = map Core.rec_id (fst (snd run')).
Proof.
  intros run run'. unfold core_init_tileset in run, run'. subst run run'.
  cbn [fst snd].
  set (all := flat_map _ tilesets).
  assert (Hall : Forall (fun b => exists u, Core.tile_url b = Some u
                                            /\ truthy (Some u) = true
                                            /\ endswith (lower u) ".b3dm" = true) all).
  { apply Forall_forall. intros b Hb. unfold all in Hb.
    apply in_flat_map in Hb as ([root dir] & _ & Hb).
    eapply core_collect_has_url. exact Hb. }
  assert (Hall' : Forall (fun b => exists u, Core.tile_url b = Some u
                                             /\ truthy (Some u) = true) all).
  { eapply Forall_impl; [| exact Hall]. intros b (u & H1 & H2 & _). eauto. }
  destruct (core_build_records_with_urls md5 uuid4 all Hall' rng) as [E1 F1].
  destruct (core_build_records_with_urls md5 uuid4 all Hall' rng') as [_ F2].
  split; [exact E1 |]. split.
  - eapply Forall2_impl; [| exact (Forall2_with_left _ _ _ _ Hall F1)].
    intros b r [(u & Hu & _ & He) (u' & Hu' & Hr & Hi)].
    rewrite Hu in Hu'. injection Hu' as <-. exists u. auto.
  - set (g := fun b => match Core.tile_url b with
                       | Some u => md5 u
                       | None => EmptyString
                       end).
    rewrite (Forall2_map_eq Core.rec_id g all).
    + symmetry. apply (Forall2_map_eq Core.rec_id g all).
      eapply Forall2_impl; [| exact F2].
      intros b r (u & Hu & _ & Hi). unfold g. now rewrite Hu.
    + eapply Forall2_impl; [| exact F1].
      intros b r (u & Hu & _ & Hi). unfold g. now rewrite Hu.
Qed.

(** ** The footprint of the earlier script *)

(** X6.  [box_to_polygonz] returns a closed ring of five points: the four
    bottom corners the core walk computes for the same box, unprojected, and
    the first of them again.  No transform enters it. *)
Theorem X6_box_to_polygonz_is_local_bottom_ring (box : Box) :
  SinglePoligon.box_to_polygonz box = Core.bottom_ring (Core.corners_local box)
  /\ List.length (SinglePoligon.box_to_polygonz box) = 5%nat
  /\ hd_error (SinglePoligon.box_to_polygonz box)
     = Some (last (SinglePoligon.box_to_polygonz box) (0, 0, 0)).
Proof.
  destruct box as [[[cx cy] cz] [[xx xy] xz] [[yx yy] yz] [[zx zy] zz]].
  unfold SinglePoligon.box_to_polygonz, Core.bottom_ring, Core.corners_local.
  cbn [box_center box_x_axis box_y_axis box_z_axis map vx vy vz v3_sub v3_add
       fst snd firstn app List.length hd_error last].
  split; [| split; reflexivity].
  repeat (apply f_equal2; [tuple_eq; ring |]). reflexivity.
Qed.

(** ** What the earlier footprint script reaches and stores *)

Lemma flat_map_flat_map {A B C : Type} (f : A -> list B) (g : B -> list C)
      (l : list A) :
  flat_map g (flat_map f l) = flat_map (fun a => flat_map g (f a)) l.
Proof.
  induction l as [| a l IH]; simpl; [reflexivity |].
  now rewrite flat_map_app, IH.
Qed.

Lemma single_height_twice (cz dz : Qc) : cz + dz - (cz - dz) = qz 2 * dz.
Proof. qc_lra. Qed.

(** X7.  The walk of 3DTilesParserSinglePoligon.py stores one record for
    every tile it reaches that has a box, leaf or not, in the order of the
    walk; it reaches a tile only when no tile above it has a box together
    with a content reference that is missing, empty or fails the [.b3dm] test
    (by [Path.suffix] for a [Path], by [endswith] for text), never looks
    below such a tile, and ignores transforms.  The stored height is
    [(cz + dz) - (cz - dz)] with [dz = box[11]]; on exact numbers that is
    twice [box[11]], whatever its sign. *)
Theorem X7_single_poligon_walk
        (fmt6 : Qc -> string) (dir pdir : string)
        (is_path : Tile -> bool) (path_suffix : string -> string) (root : Tile) :
  map (fun r => (SinglePoligon.tile_url r, SinglePoligon.height r))
      (SinglePoligon.collect_tileset_bounds fmt6 dir pdir is_path path_suffix root)
  = flat_map (fun t => match bounding_volume t with
                       | Some box =>
                           [(content_uri t,
                             Some (vz (box_center box) + vz (box_z_axis box)
                                   - (vz (box_center box) - vz (box_z_axis box))))]
                       | None => []
                       end)
             (single_reached is_path path_suffix root)
  /\ forall cz dz : Qc, cz + dz - (cz - dz) = qz 2 * dz.
Proof.
  split; [| exact single_height_twice].
  unfold SinglePoligon.collect_tileset_bounds.
  induction root as [tr bv uri rf ch IH] using Tile_ind.
  cbn [SinglePoligon._recursive_collect single_reached children bounding_volume
       content_uri].
  rewrite Forall_forall in IH.
  assert (Hrest :
    map (fun r => (SinglePoligon.tile_url r, SinglePoligon.height r))
        (flat_map (SinglePoligon._recursive_collect fmt6 dir pdir is_path
                     path_suffix) ch)
    = flat_map (fun t => match bounding_volume t with
                         | Some box =>
                             [(content_uri t,
                               Some (vz (box_center box) + vz (box_z_axis box)
                                     - (vz (box_center box) - vz (box_z_axis box))))]
                         | None => []
                         end)
               (flat_map (single_reached is_path path_suffix) ch)).
  { rewrite map_flat_map, flat_map_flat_map.
    apply flat_map_ext_in. intros c Hc. exact (IH c Hc). }
  unfold single_blocked. cbn [bounding_volume content_uri].
  destruct bv as [box |].
  - destruct uri as [u |]; [| reflexivity].
    destruct (truthy (Some u)); [| reflexivity].
    cbn [andb].
    destruct (SinglePoligon.is_b3dm is_path path_suffix
                (mkTile tr (Some box) (Some u) rf ch) u); cbn [negb].
    + cbn [flat_map map app SinglePoligon.tile_url SinglePoligon.height
           bounding_volume content_uri].
      rewrite Hrest. reflexivity.
    + reflexivity.
  - cbn [flat_map app bounding_volume]. exact Hrest.
Qed.

(** ** From the walk to the query *)

Lemma core_box_height_formula (box : Box) :
  Core.box_height box
  = Some (qz 2 * (Qcabs (vz (box_x_axis box)) + Qcabs (vz (box_y_axis box))
                  + Qcabs (vz (box_z_axis box)))).
Proof.
  destruct box as [[[cx cy] cz] [[xx xy] xz] [[yx yy] yz] [[zx zy] zz]].
  unfold Core.box_height, Core.corners_local.
  cbn [box_center box_x_axis box_y_axis box_z_axis map vz v3_sub v3_add snd fst].
  rewrite z_values_max, z_values_min. f_equal.
  set (s := Qcabs xz + Qcabs yz + Qcabs zz). clearbody s. qc_lra.
Qed.

Lemma selected_rectangle (i : string) (u d : option string)
      (x0 y0 x1 y1 g h x y z : Qc) :
  x0 < x1 -> y0 < y1 ->
  Collision.selected x y z
    (Collision.mkBuilding i u d (Some h)
       (Some (Collision.rectangle_ring x0 y0 x1 y1 g))) = true
  <-> (x0 <= x /\ x <= x1 /\ y0 <= y /\ y <= y1) /\ g <= z /\ z <= g + h.
Proof.
  intros Hx Hy.
  rewrite selected_iff, <- (covers_rectangle x0 y0 x1 y1 x y Hx Hy).
  unfold Collision.collides, Collision.rectangle_ring.
  cbn [Collision.bounding_volume Collision.height Collision.footprint map
       vx vy vz fst snd]. split.
  - intros (ring & first & ht & E1 & E2 & E3 & Hc & Hz).
    injection E1 as <-. injection E3 as <-. cbn in E2. injection E2 as <-.
    cbn [map vx vy vz fst snd] in Hc. auto.
  - intros (Hc & Hz). eexists _, _, _.
    split; [reflexivity |]. split; [reflexivity |]. split; [reflexivity |].
    cbn [map vx vy vz fst snd]. tauto.
Qed.

Lemma Qcabs_zero : Qcabs 0 = 0.
Proof. apply Qcabs_pos. apply Qcle_refl. Qed.

(** X8.  A box along the axes, stored by the core module under a
    translation: the ring reaches the store as text with six decimals, so the
    stored rectangle has the moved bounds rounded to six decimals.  When the
    rounded bounds are still apart in x and in y, the collision query returns
    the row exactly for the points over that rounded rectangle whose z lies
    between the rounded z of the face at [cz - hz] and that plus twice
    [|hz|].  For [hz < 0] the band starts at the upper face of the box and
    lies above it.  Numbers are taken as exact. *)
Theorem X8_core_box_collides_as_stored
        (i : string) (u dir : option string)
        (cx cy cz hx hy hz tx ty tz x y z : Qc) :
  round6 (cx + tx - hx) < round6 (cx + tx + hx) ->
  round6 (cy + ty - hy) < round6 (cy + ty + hy) ->
  Collision.selected x y z
    (core_row i u dir (aligned_box cx cy cz hx hy hz)
              (translation_matrix tx ty tz)) = true
  <-> (round6 (cx + tx - hx) <= x /\ x <= round6 (cx + tx + hx)
       /\ round6 (cy + ty - hy) <= y /\ y <= round6 (cy + ty + hy))
      /\ round6 (cz + tz - hz) <= z
      /\ z <= round6 (cz + tz - hz) + qz 2 * Qcabs hz.
Proof.
  intros Hx Hy. unfold core_row.
  rewrite core_box_height_formula.
  assert (Ering :
    Core.bottom_ring
      (map (fun corner => Core._apply_transform corner (translation_matrix tx ty tz))
           (Core.corners_local (aligned_box cx cy cz hx hy hz)))
    = Collision.rectangle_ring (cx + tx - hx) (cy + ty - hy)
                               (cx + tx + hx) (cy + ty + hy) (cz + tz - hz)).
  { unfold Core.corners_local, aligned_box, Core.bottom_ring,
      Collision.rectangle_ring.
    cbn [box_center box_x_axis box_y_axis box_z_axis map v3_sub v3_add firstn app].
    rewrite !core_apply_translation. unfold translate.
    repeat (apply f_equal2; [tuple_eq; ring |]). reflexivity. }
  rewrite Ering.
  change (map round6_point
            (Collision.rectangle_ring (cx + tx - hx) (cy + ty - hy)
               (cx + tx + hx) (cy + ty + hy) (cz + tz - hz)))
    with (Collision.rectangle_ring
            (round6 (cx + tx - hx)) (round6 (cy + ty - hy))
            (round6 (cx + tx + hx)) (round6 (cy + ty + hy))
            (round6 (cz + tz - hz))).
  unfold aligned_box. cbn [box_x_axis box_y_axis box_z_axis vz snd].
  rewrite Qcabs_zero.
  rewrite selected_rectangle by assumption.
  set (a := Qcabs hz). clearbody a.
  set (g := round6 (cz + tz - hz)). clearbody g.
  split; intros (H1 & H2 & H3); (split; [exact H1 |]); split; qc_lra.
Qed.

Lemma X8_core_box_collides_as_stored_witness :
  round6 (0 + qz 10 - 1) < round6 (0 + qz 10 + 1)
  /\ round6 (0 + qz 5 - 1) < round6 (0 + qz 5 + 1)
  /\ Collision.selected (qz 10) (qz 5) (qz 1)
       (core_row "id" None None (aligned_box 0 0 0 1 1 1)
                 (translation_matrix (qz 10) (qz 5) 0)) = true.
Proof.
  assert (Hx : round6 (0 + qz 10 - 1) < round6 (0 + qz 10 + 1))
    by (apply Qcltb_true; vm_compute; reflexivity).
  assert (Hy : round6 (0 + qz 5 - 1) < round6 (0 + qz 5 + 1))
    by (apply Qcltb_true; vm_compute; reflexivity).
  split; [exact Hx |]. split; [exact Hy |].
  apply (X8_core_box_collides_as_stored "id" None None 0 0 0 1 1 1
           (qz 10) (qz 5) 0 (qz 10) (qz 5) (qz 1) Hx Hy).
  repeat split; apply Qcleb_true; vm_compute; reflexivity.
Defined.

(** ** [apply_transform] of the solid scripts *)

Lemma traverse_none_iff {A B : Type} (f : A -> option B) (l : list A) :
  traverse f l = None <-> Exists (fun a => f a = None) l.
Proof.
  induction l as [| a l IH]; simpl.
  - split; [discriminate | intros H; inversion H].
  - destruct (f a) as [b |] eqn:E.
    + destruct (traverse f l) as [bs |].
      * split; [discriminate |]. intros H. inversion H; subst; [congruence |].
        apply IH in H1. discriminate.
      * split; [| reflexivity]. intros _. right. now apply IH.
    + split; [| reflexivity]. intros _. now left.
Qed.

Lemma traverse_some_inv {A B : Type} (f : A -> option B) (l : list A) :
  forall out, traverse f l = Some out -> Forall2 (fun a b => f a = Some b) l out.
Proof.
  induction l as [| a l IH]; simpl; intros out H.
  - injection H as <-. constructor.
  - destruct (f a) as [b |] eqn:E; [| discriminate].
    destruct (traverse f l) as [bs |]; [| discriminate].
    injection H as <-. constructor; auto.
Qed.

Lemma solid_multiply_cases (matrix : list Qc) (p : V3) :
  (solid_weight matrix p = 0 /\ Solid.multiply matrix p = None)
  \/ (solid_weight matrix p <> 0
      /\ exists q, Solid.multiply matrix p = Some q
                   /\ vx q * solid_weight matrix p = vx (solid_xyz matrix p)
                   /\ vy q * solid_weight matrix p = vy (solid_xyz matrix p)
                   /\ vz q * solid_weight matrix p = vz (solid_xyz matrix p)).
Proof.
  destruct p as [[x y] z]. unfold Solid.multiply, solid_weight, solid_xyz.
  set (w := Solid.at_ matrix 3 * x + _ + _ + _).
  set (xn := Solid.at_ matrix 0 * x + _ + _ + _).
  set (yn := Solid.at_ matrix 1 * x + _ + _ + _).
  set (zn := Solid.at_ matrix 2 * x + _ + _ + _).
  destruct (Qc_eq_dec w 0) as [E | E].
  - left. split; [exact E |].
    unfold py_div. destruct (Qc_eq_dec w 0) as [_ | K]; [reflexivity | contradiction].
  - right. split; [exact E |]. unfold py_div.
    destruct (Qc_eq_dec w 0) as [K | _]; [contradiction |].
    eexists. split; [reflexivity |]. cbn [vx vy vz fst snd].
    repeat split; field; exact E.
Qed.

(** X9.  [apply_transform] of 3DTilesParser.py and 3DTilesParserMultiPath.py
    raises exactly when some point gets the weight 0 under the matrix it
    uses (the given list, or its repair when shorter than 16).  When it
    returns, it returns one point per input point, in order, and each
    returned point times the weight is the matrix-vector product. *)
Theorem X9_solid_apply_transform_outcome
        (points : list V3) (transform_matrix : list Qc) :
  let m := Solid.repair transform_matrix in
  (Solid.apply_transform points transform_matrix = None
   <-> Exists (fun p => solid_weight m p = 0) points)
  /\ forall out,
      Solid.apply_transform points transform_matrix = Some out ->
      Forall2 (fun p q => solid_weight m p <> 0
                          /\ vx q * solid_weight m p = vx (solid_xyz m p)
                          /\ vy q * solid_weight m p = vy (solid_xyz m p)
                          /\ vz q * solid_weight m p = vz (solid_xyz m p))
              points out.
Proof.
  intros m. unfold Solid.apply_transform. fold m. split.
  - rewrite traverse_none_iff. split; intros H.
    + eapply Exists_impl; [| exact H]. intros p Hp. cbn beta in Hp.
      destruct (solid_multiply_cases m p) as [[E _] | [_ (q & K & _)]];
        [exact E | congruence].
    + eapply Exists_impl; [| exact H]. intros p Hp. cbn beta in Hp.
      destruct (solid_multiply_cases m p) as [[_ K] | [E _]];
        [exact K | contradiction].
  - intros out H. apply traverse_some_inv in H.
    eapply Forall2_impl; [| exact H]. intros p q Hq. cbn beta in Hq.
    destruct (solid_multiply_cases m p) as [[_ K] | [E (q' & K & H1 & H2 & H3)]];
      [congruence |].
    rewrite K in Hq. injection Hq as <-. auto.
Qed.

(** X10.  A matrix of at least 16 numbers whose entries 3, 7 and 11 are 0 and
    whose entry 15 is 1 (an affine map) is applied exactly and never makes
    [apply_transform] of the solid scripts raise. *)
Theorem X10_solid_apply_affine
        (points : list V3) (m : list Qc) :
  (16 <= List.length m)%nat ->
  Solid.at_ m 3 = 0 -> Solid.at_ m 7 = 0 -> Solid.at_ m 11 = 0 ->
  Solid.at_ m 15 = 1 ->
  Solid.apply_transform points m = Some (map (solid_xyz m) points).
Proof.
  intros Hlen H3 H7 H11 H15. unfold Solid.apply_transform, Solid.repair.
  assert ((List.length m <? 16)%nat = false) as -> by (apply Nat.ltb_ge; lia).
  apply traverse_total. intros [[x y] z] _.
  unfold Solid.multiply, solid_xyz. rewrite H3, H7, H11, H15.
  replace (0 * x + 0 * y + 0 * z + 1 * 1) with 1 by ring.
  now rewrite !py_div_one.
Qed.

Lemma X10_solid_apply_affine_witness :
  (16 <= List.length (translation16 (qz 10) (qz 5) 0))%nat
  /\ Solid.apply_transform [(1, 1, 1)] (translation16 (qz 10) (qz 5) 0)
     = Some [(qz 11, qz 6, 1)].
Proof.
  assert (H : (16 <= List.length (translation16 (qz 10) (qz 5) 0))%nat)
    by (cbn; lia).
  split; [exact H |].
  rewrite (X10_solid_apply_affine [(1, 1, 1)] _ H eq_refl eq_refl eq_refl eq_refl).
  vm_compute. reflexivity.
Defined.

(** ** [clean_points] and the face loop of the solid scripts *)

Ltac coord_cases p :=
  destruct p as [[[? | [| ? ?]] [? | [| ? ?]]] [? | [| ? ?]]].

Lemma parser3d_point_none (p : Solid.RawPoint) :
  (let '(p0, p1, p2) := p in
   match Parser3D.first_of p0, Parser3D.first_of p1, Parser3D.first_of p2 with
   | Some x, Some y, Some z => Some (x, y, z)
   | _, _, _ => None
   end) = None
  <-> any_coord (fun c => plain_number c || empty_array c) p = true.
Proof.
  coord_cases p; cbn; split; intros H; try discriminate; reflexivity.
Qed.

Lemma multipath_point_none (p : Solid.RawPoint) :
  (let '(p0, p1, p2) := p in
   match MultiPath.first_or_self p0, MultiPath.first_or_self p1,
         MultiPath.first_or_self p2 with
   | Some x, Some y, Some z => Some (x, y, z)
   | _, _, _ => None
   end) = None
  <-> any_coord empty_array p = true.
Proof.
  coord_cases p; cbn; split; intros H; try discriminate; reflexivity.
Qed.

Lemma parser3d_first_of_some (c : Solid.Coord) (v : Qc) :
  Parser3D.first_of c = Some v -> MultiPath.first_or_self c = Some v.
Proof. destruct c as [w | a]; cbn; [discriminate | auto]. Qed.

(** X11.  [clean_points] of 3DTilesParser.py raises exactly when some
    coordinate is a plain number or an empty array; the one of
    3DTilesParserMultiPath.py raises only on an empty array, and returns the
    same points wherever the former returns. *)
Theorem X11_clean_points_compared (raw_points : list Solid.RawPoint) :
  (Parser3D.clean_points raw_points = None
   <-> existsb (any_coord (fun c => plain_number c || empty_array c)) raw_points
       = true)
  /\ (MultiPath.clean_points raw_points = None
      <-> existsb (any_coord empty_array) raw_points = true)
  /\ (forall pts, Parser3D.clean_points raw_points = Some pts ->
                  MultiPath.clean_points raw_points = Some pts).
Proof.
  unfold Parser3D.clean_points, MultiPath.clean_points.
  split; [| split].
  - rewrite traverse_none_iff, existsb_exists, Exists_exists.
    split; intros (p & Hin & H); exists p; (split; [exact Hin |]);
      apply parser3d_point_none; destruct p as [[p0 p1] p2]; exact H.
  - rewrite traverse_none_iff, existsb_exists, Exists_exists.
    split; intros (p & Hin & H); exists p; (split; [exact Hin |]);
      apply multipath_point_none; destruct p as [[p0 p1] p2]; exact H.
  - induction raw_points as [| [[p0 p1] p2] l IH]; cbn [traverse]; intros pts H.
    + exact H.
    + destruct (Parser3D.first_of p0) as [x |] eqn:E0; [| discriminate].
      destruct (Parser3D.first_of p1) as [y |] eqn:E1; [| discriminate].
      destruct (Parser3D.first_of p2) as [z |] eqn:E2; [| discriminate].
      rewrite (parser3d_first_of_some _ _ E0), (parser3d_first_of_some _ _ E1),
        (parser3d_first_of_some _ _ E2).
      match type of H with
      | match ?t with _ => _ end = _ => destruct t as [bs |] eqn:El; [| discriminate]
      end.
      rewrite (IH bs eq_refl). exact H.
Qed.

(** X12.  The face loop both solid scripts run after cleaning raises exactly
    when it is given fewer than 8 points; points after the eighth are
    ignored. *)
Theorem X12_face_loop_needs_eight_points (fmt : Qc -> string) :
  (forall points,
      Solid.polyhedron_of fmt points = None <-> (List.length points < 8)%nat)
  /\ (forall p0 p1 p2 p3 p4 p5 p6 p7 more,
         Solid.polyhedron_of fmt ([p0; p1; p2; p3; p4; p5; p6; p7] ++ more)
         = Solid.polyhedron_of fmt [p0; p1; p2; p3; p4; p5; p6; p7]).
Proof.
  split.
  - intros points.
    do 8 (destruct points as [| ? points];
          [split; [intros _; cbn; lia | intros _; reflexivity] |]).
    split; [| cbn; lia]. unfold Solid.polyhedron_of. cbn. discriminate.
  - intros. reflexivity.
Qed.

(** ** [apply_transform] of the MULTIPOLYGON Z script *)

Lemma poligonz_multiply_value (m : list Qc) (p : V3) :
  exists q,
    PoligonZ.multiply m p = Some q
    /\ vx q * PoligonZ.divisor_of (PoligonZ.w_new_of m p) = vx (solid_xyz m p)
    /\ vy q * PoligonZ.divisor_of (PoligonZ.w_new_of m p) = vy (solid_xyz m p)
    /\ vz q * PoligonZ.divisor_of (PoligonZ.w_new_of m p) = vz (solid_xyz m p).
Proof.
  destruct (poligonz_divisor_guard (PoligonZ.w_new_of m p)) as (_ & _ & _ & G4).
  destruct p as [[x y] z].
  unfold PoligonZ.multiply.
  set (d := PoligonZ.divisor_of (PoligonZ.w_new_of m (x, y, z))) in *.
  clearbody d.
  unfold py_div. destruct (Qc_eq_dec d 0) as [K | _]; [contradiction |].
  eexists. split; [reflexivity |].
  unfold solid_xyz, Solid.at_, PoligonZ.at_. cbn [vx vy vz fst snd].
  repeat split; field; exact G4.
Qed.

(** X13.  [apply_transform] of 3DTilesParserPoligonZ.py returns for every
    matrix and every list of points: one point per input point, each obtained
    by dividing the matrix-vector product by a divisor of magnitude at least
    1e-10, which is the weight itself unless that is smaller in magnitude. *)
Theorem X13_poligonz_apply_transform_total
        (points : list V3) (transform_matrix : list Qc) :
  exists out,
    PoligonZ.apply_transform points transform_matrix = Some out
    /\ Forall2 (fun p q =>
                  exists d,
                    d = PoligonZ.divisor_of
                          (PoligonZ.w_new_of
                             (PoligonZ.flat_matrix_of transform_matrix) p)
                    /\ eps <= Qcabs d
                    /\ (eps <= Qcabs (PoligonZ.w_new_of
                                        (PoligonZ.flat_matrix_of transform_matrix) p) ->
                        d = PoligonZ.w_new_of
                              (PoligonZ.flat_matrix_of transform_matrix) p)
                    /\ vx q * d
                       = vx (solid_xyz (PoligonZ.flat_matrix_of transform_matrix) p)
                    /\ vy q * d
                       = vy (solid_xyz (PoligonZ.flat_matrix_of transform_matrix) p)
                    /\ vz q * d
                       = vz (solid_xyz (PoligonZ.flat_matrix_of transform_matrix) p))
               points out.
Proof.
  unfold PoligonZ.apply_transform.
  set (m := PoligonZ.flat_matrix_of transform_matrix). clearbody m.
  induction points as [| p ps IH]; cbn [traverse].
  - exists []. split; [reflexivity | constructor].
  - destruct IH as (out & E & F). rewrite E.
    destruct (poligonz_multiply_value m p) as (q & Eq & H1 & H2 & H3).
    rewrite Eq. exists (q :: out). split; [reflexivity |].
    constructor; [| exact F].
    destruct (poligonz_divisor_guard (PoligonZ.w_new_of m p)) as (_ & G2 & G3 & _).
    eexists. split; [reflexivity |]. auto.
Qed.

(** ** The matrix normalisation of the MULTIPOLYGON Z script *)

Lemma pad16_of_16 (m : list Qc) :
  List.length m = 16%nat -> PoligonZ.pad16 m = m.
Proof.
  intros H. unfold PoligonZ.pad16.
  rewrite firstn_all2 by lia. rewrite H. cbn [Nat.sub repeat]. apply app_nil_r.
Qed.

Lemma default_one_keeps (i : nat) (m : list Qc) :
  PoligonZ.at_ m i <> 0 -> PoligonZ.default_one i m = m.
Proof.
  intros H. unfold PoligonZ.default_one.
  destruct (Qceqb (PoligonZ.at_ m i) 0) eqn:E; [| reflexivity].
  apply Qceqb_true in E. contradiction.
Qed.

Lemma poligonz_flat_matrix_keeps (m : list Qc) :
  List.length m = 16%nat ->
  PoligonZ.at_ m 0 <> 0 -> PoligonZ.at_ m 5 <> 0 ->
  PoligonZ.at_ m 10 <> 0 -> PoligonZ.at_ m 15 <> 0 ->
  PoligonZ.flat_matrix_of m = m.
Proof.
  intros Hlen H0 H5 H10 H15. unfold PoligonZ.flat_matrix_of.
  rewrite (pad16_of_16 m Hlen).
  rewrite (default_one_keeps 0 m H0), (default_one_keeps 5 m H5),
    (default_one_keeps 10 m H10), (default_one_keeps 15 m H15).
  reflexivity.
Qed.

Lemma poligonz_flat_diagonal_nonzero (m : list Qc) (i : nat) :
  on_diagonal i = true -> PoligonZ.at_ (PoligonZ.flat_matrix_of m) i <> 0.
Proof.
  intros Hd.
  assert (Hi : (i < 16)%nat).
  { unfold on_diagonal in Hd. cbn [existsb] in Hd.
    rewrite !orb_true_iff, !Nat.eqb_eq in Hd. lia. }
  rewrite (flat_matrix_of_at m i Hi), Hd. cbn [andb].
  destruct (Qceqb (nth i m 0) 0) eqn:E.
  - exact Q_apart_0_1.
  - now apply Qceqb_false.
Qed.

(** X14.  A matrix of exactly 16 numbers with no 0 at the flat positions 0,
    5, 10 and 15 passes through the normalisation of
    3DTilesParserPoligonZ.py unchanged: [apply_transform] multiplies with the
    matrix as given. *)
Theorem X14_poligonz_matrix_kept (m : list Qc) :
  List.length m = 16%nat ->
  PoligonZ.at_ m 0 <> 0 -> PoligonZ.at_ m 5 <> 0 ->
  PoligonZ.at_ m 10 <> 0 -> PoligonZ.at_ m 15 <> 0 ->
  PoligonZ.flat_matrix_of m = m
  /\ forall points,
      PoligonZ.apply_transform points m = traverse (PoligonZ.multiply m) points.
Proof.
  intros Hlen H0 H5 H10 H15.
  pose proof (poligonz_flat_matrix_keeps m Hlen H0 H5 H10 H15) as E.
  split; [exact E |]. intros points. unfold PoligonZ.apply_transform. now rewrite E.
Qed.

Lemma Qc_one_nonzero : (1 : Qc) <> 0.
Proof. exact Q_apart_0_1. Qed.

Lemma X14_poligonz_matrix_kept_witness :
  List.length (translation16 (qz 10) (qz 5) 0) = 16%nat
  /\ PoligonZ.flat_matrix_of (translation16 (qz 10) (qz 5) 0)
     = translation16 (qz 10) (qz 5) 0.
Proof.
  split; [reflexivity |].
  apply (X14_poligonz_matrix_kept (translation16 (qz 10) (qz 5) 0) eq_refl
           Qc_one_nonzero Qc_one_nonzero Qc_one_nonzero Qc_one_nonzero).
Defined.

(** X15.  The normalisation always yields 16 numbers with no 0 on the
    diagonal, so normalising twice changes nothing more; the empty list (and
    any list of zeros) becomes the identity. *)
Theorem X15_poligonz_normalisation_idempotent :
  (forall m, PoligonZ.flat_matrix_of (PoligonZ.flat_matrix_of m)
             = PoligonZ.flat_matrix_of m)
  /\ (forall m i, on_diagonal i = true ->
                  PoligonZ.at_ (PoligonZ.flat_matrix_of m) i <> 0)
  /\ (forall n, PoligonZ.flat_matrix_of (repeat 0 n) = PoligonZ.identity16).
Proof.
  split; [| split].
  - intros m. apply poligonz_flat_matrix_keeps.
    + unfold PoligonZ.flat_matrix_of. rewrite !default_one_length. apply pad16_length.
    + now apply poligonz_flat_diagonal_nonzero.
    + now apply poligonz_flat_diagonal_nonzero.
    + now apply poligonz_flat_diagonal_nonzero.
    + now apply poligonz_flat_diagonal_nonzero.
  - exact poligonz_flat_diagonal_nonzero.
  - intros n.
    assert (E : PoligonZ.pad16 (repeat 0 n) = repeat 0 16).
    { apply nth_ext with (d := 0) (d' := 0).
      - now rewrite pad16_length, repeat_length.
      - intros i Hi. rewrite pad16_length in Hi.
        rewrite pad16_nth by exact Hi. now rewrite !nth_repeat. }
    unfold PoligonZ.flat_matrix_of. rewrite E. vm_compute. reflexivity.
Qed.

(** ** Repeated corners *)

Ltac corner_neq Hx Hy Hz :=
  let H := fresh in
  intros H; cbn [In] in H;
  repeat match goal with
         | K : _ \/ _ |- _ => destruct K as [K | K]
         end;
  try contradiction;
  match goal with
  | K : (_, _, _) = (_, _, _) |- _ =>
      pose proof (f_equal vx K); pose proof (f_equal vy K);
      pose proof (f_equal vz K); clear K;
      cbn [vx vy vz fst snd] in *;
      first [ apply Hx; qc_lra | apply Hy; qc_lra | apply Hz; qc_lra ]
  end.

Lemma local_points_nodup_iff (box : Box) :
  NoDup (PoligonZ.local_points box) <-> no_zero_half_length box.
Proof.
  destruct box as [[[cx cy] cz] [[hx xy] xz] [[yx hy] yz] [[zx zy] hz]].
  unfold PoligonZ.local_points, no_zero_half_length, half_lengths.
  cbn [box_center box_x_axis box_y_axis box_z_axis vx vy vz fst snd].
  split.
  - intros H. repeat split; intros ->.
    + inversion H as [| ? ? Hn _]; subst. apply Hn. left. tuple_eq; ring.
    + inversion H as [| ? ? Hn _]; subst. apply Hn. right; right; left.
      tuple_eq; ring.
    + inversion H as [| ? ? Hn _]; subst. apply Hn. right; right; right; left.
      tuple_eq; ring.
  - intros (Hx & Hy & Hz).
    repeat (constructor; [corner_neq Hx Hy Hz |]). constructor.
Qed.

(** X16.  Numbers taken as exact, the eight corners the solid scripts build
    from [box[0..2]], [box[3]], [box[7]] and [box[11]] are pairwise distinct
    exactly when none of the three half lengths is 0.  (A half length of 0
    repeats a corner in floating point too; a half length that is not 0 can
    still vanish there against a large centre.) *)
Theorem X16_local_points_distinct (box : Box) :
  (NoDup (PoligonZ.local_points box) <-> no_zero_half_length box)
  /\ MultiPath.local_points box = PoligonZ.local_points box.
Proof.
  split; [apply local_points_nodup_iff | reflexivity].
Qed.

(** ** The MULTIPOLYGON Z walk over a tileset that moves nothing *)

Lemma poligonz_visits_in_preorder (root t : Tile) (cur : option (list Qc))
      (tt : list Qc) :
  PoligonZ.visits root cur t tt -> In t (preorder root).
Proof.
  induction 1 as [t cur | t c t' cur tt Hc Hv IH].
  - destruct t. cbn. now left.
  - destruct t as [tr bv uri rf ch]. cbn [preorder children] in *.
    right. apply in_flat_map. exists c. auto.
Qed.

Lemma poligonz_preorder_visits (root t : Tile) :
  In t (preorder root) ->
  forall cur, exists tt, PoligonZ.visits root cur t tt.
Proof.
  induction root as [tr bv uri rf ch IH] using Tile_ind.
  cbn [preorder children]. intros [<- | Hin] cur.
  - eexists. apply PoligonZ.visits_here.
  - apply in_flat_map in Hin as (c & Hc & Hin).
    rewrite Forall_forall in IH.
    destruct (IH c Hc Hin (Some (PoligonZ.tile_transform_of
                                   (mkTile tr bv uri rf ch) cur))) as [tt Hv].
    exists tt. eapply PoligonZ.visits_child; [exact Hc | exact Hv].
Qed.

Lemma untransformed_child (t c : Tile) :
  untransformed t -> In c (children t) -> untransformed c.
Proof.
  unfold untransformed. destruct t as [tr bv uri rf ch].
  cbn [preorder children]. intros H Hc. inversion H as [| ? ? _ Hrest]; subst.
  rewrite Forall_forall in *. intros x Hx. apply Hrest.
  apply in_flat_map. exists c. auto.
Qed.

Lemma untransformed_root (t : Tile) :
  untransformed t ->
  transform t = None \/ transform t = Some PoligonZ.identity16.
Proof.
  unfold untransformed. destruct t as [tr bv uri rf ch].
  cbn [preorder]. intros H. now inversion H.
Qed.

Lemma poligonz_untransformed_here (t : Tile) (cur : option (list Qc)) :
  untransformed t ->
  cur = None \/ cur = Some PoligonZ.identity16 ->
  PoligonZ.tile_transform_of t cur = PoligonZ.identity16.
Proof.
  intros Hfree Hcur. unfold PoligonZ.tile_transform_of.
  destruct (untransformed_root t Hfree) as [-> | ->]; [| reflexivity].
  destruct Hcur as [-> | ->]; reflexivity.
Qed.

Lemma poligonz_untransformed_identity (root t : Tile)
      (cur : option (list Qc)) (tt : list Qc) :
  PoligonZ.visits root cur t tt ->
  untransformed root ->
  cur = None \/ cur = Some PoligonZ.identity16 ->
  tt = PoligonZ.identity16.
Proof.
  induction 1 as [t cur | t c t' cur tt Hc Hv IH]; intros Hfree Hcur.
  - now apply poligonz_untransformed_here.
  - apply IH.
    + eapply untransformed_child; eassumption.
    + right. f_equal. now apply poligonz_untransformed_here.
Qed.

Lemma poligonz_multiply_identity (p : V3) :
  PoligonZ.multiply PoligonZ.identity16 p = Some p.
Proof.
  destruct p as [[x y] z].
  unfold PoligonZ.multiply, PoligonZ.w_new_of, PoligonZ.identity16, PoligonZ.at_.
  cbn [nth].
  replace (0 * x + 0 * y + 0 * z + 1 * 1) with 1 by ring.
  assert (E : PoligonZ.divisor_of 1 = 1) by (vm_compute; reflexivity).
  rewrite E, !py_div_one. apply f_equal. tuple_eq; ring.
Qed.

Lemma poligonz_apply_identity (points : list V3) :
  PoligonZ.apply_transform points PoligonZ.identity16 = Some points.
Proof.
  unfold PoligonZ.apply_transform.
  assert (E : PoligonZ.flat_matrix_of PoligonZ.identity16 = PoligonZ.identity16)
    by (vm_compute; reflexivity).
  rewrite E, (traverse_total _ (fun p => p)).
  - now rewrite map_id.
  - intros p _. apply poligonz_multiply_identity.
Qed.

Lemma poligonz_degenerate_identity (t : Tile) :
  PoligonZ.degenerate t PoligonZ.identity16
  <-> exists box, bounding_volume t = Some box
                  /\ ~ NoDup (PoligonZ.local_points box).
Proof.
  unfold PoligonZ.degenerate. split.
  - intros (box & pts & Hb & Hp & Hn). exists box. split; [exact Hb |].
    rewrite poligonz_apply_identity in Hp. now injection Hp as <-.
  - intros (box & Hb & Hn). exists box, (PoligonZ.local_points box).
    split; [exact Hb |]. split; [apply poligonz_apply_identity | exact Hn].
Qed.

(** X17.  Over a tileset in which every tile has no transform or the
    identity, the walk of 3DTilesParserPoligonZ.py returns exactly when, for
    every tile with a box, the eight corners built from the box are pairwise
    distinct; a tile whose box has a half length ([box[3]], [box[7]] or
    [box[11]]) equal to 0 makes the whole walk raise AssertionError. *)
Theorem X17_poligonz_untransformed_walk
        (fmt6 : Qc -> string) (loads : string -> bool) (dir pdir : string)
        (root : Tile) :
  untransformed root ->
  ((exists recs,
       PoligonZ.collect_tileset_bounds fmt6 loads dir pdir root = Returned recs)
   <-> forall t box, In t (preorder root) -> bounding_volume t = Some box ->
                     NoDup (PoligonZ.local_points box))
  /\ (forall t box,
         In t (preorder root) -> bounding_volume t = Some box ->
         ~ no_zero_half_length box ->
         PoligonZ.collect_tileset_bounds fmt6 loads dir pdir root
         = Raised AssertionError).
Proof.
  intros Hfree.
  assert (Hbad : forall t box,
             In t (preorder root) -> bounding_volume t = Some box ->
             ~ NoDup (PoligonZ.local_points box) ->
             PoligonZ.collect_tileset_bounds fmt6 loads dir pdir root
             = Raised AssertionError).
  { intros t box Hin Hb Hn.
    destruct (poligonz_preorder_visits root t Hin None) as [tt Hv].
    pose proof (poligonz_untransformed_identity root t None tt Hv Hfree
                  (or_introl eq_refl)) as ->.
    eapply poligonz_degenerate_aborts; [exact Hv |].
    apply poligonz_degenerate_identity. eauto. }
  split; [split |].
  - intros [recs E] t box Hin Hb.
    destruct (PoligonZ.all_unique (PoligonZ.local_points box)) eqn:Eu.
    + now apply all_unique_iff.
    + exfalso. rewrite (Hbad t box Hin Hb) in E; [discriminate |].
      intros K. apply all_unique_iff in K. congruence.
  - intros Hok. apply poligonz_sound_tree_returns.
    intros t tt Hv Hd.
    pose proof (poligonz_untransformed_identity root t None tt Hv Hfree
                  (or_introl eq_refl)) as ->.
    apply poligonz_degenerate_identity in Hd as (box & Hb & Hn).
    apply Hn. eapply Hok; [| exact Hb].
    eapply poligonz_visits_in_preorder. exact Hv.
  - intros t box Hin Hb Hz. apply (Hbad t box Hin Hb).
    intros K. apply Hz. now apply local_points_nodup_iff.
Qed.

Lemma X17_poligonz_untransformed_walk_witness :
  untransformed mixed_root
  /\ PoligonZ.collect_tileset_bounds show_q (fun _ => true) "dir" "p" mixed_root
     = Raised AssertionError.
Proof.
  assert (H : untransformed mixed_root) by (repeat constructor).
  split; [exact H |].
  destruct (X17_poligonz_untransformed_walk show_q (fun _ => true)
              "dir"%string "p"%string mixed_root H) as (_ & K).
  apply (K point_leaf point_box).
  - right; left; reflexivity.
  - reflexivity.
  - intros (Z & _). apply Z. reflexivity.
Defined.

(** ** The records of the solid walks *)

Lemma extend_all_returned_inv {A : Type} (visit : Tile -> Outcome (list A))
      (cs : list Tile) :
  forall acc out,
    extend_all visit cs acc = Returned out ->
    exists parts,
      Forall2 (fun c part => visit c = Returned part) cs parts
      /\ out = (acc ++ List.concat parts)%list.
Proof.
  induction cs as [| c cs IH]; intros acc out H; cbn [extend_all] in H.
  - injection H as <-. exists []. split; [constructor |]. cbn. now rewrite app_nil_r.
  - destruct (visit c) as [more | e] eqn:E; [| discriminate].
    apply IH in H as (parts & F & ->).
    exists (more :: parts). split; [constructor; auto |].
    cbn [List.concat]. now rewrite app_assoc.
Qed.

Lemma extend_each_some_inv {A : Type} (visit : Tile -> option (list A))
      (cs : list Tile) :
  forall acc out,
    extend_each visit cs acc = Some out ->
    exists parts,
      Forall2 (fun c part => visit c = Some part) cs parts
      /\ out = (acc ++ List.concat parts)%list.
Proof.
  induction cs as [| c cs IH]; intros acc out H; cbn [extend_each] in H.
  - injection H as <-. exists []. split; [constructor |]. cbn. now rewrite app_nil_r.
  - destruct (visit c) as [more |] eqn:E; [| discriminate].
    apply IH in H as (parts & F & ->).
    exists (more :: parts). split; [constructor; auto |].
    cbn [List.concat]. now rewrite app_assoc.
Qed.

Lemma concat_parts_flat_map {A B : Type} (f : A -> B) (g : Tile -> list B)
      (cs : list Tile) (parts : list (list A)) :
  Forall2 (fun c part => map f part = g c) cs parts ->
  map f (List.concat parts) = flat_map g cs.
Proof.
  induction 1 as [| c part cs parts H F IH]; [reflexivity |].
  cbn [List.concat flat_map]. now rewrite map_app, H, IH.
Qed.

Lemma poligonz_tile_bounds_fields fmt6 loads dir pdir (t : Tile) (tt : list Qc)
      (own : list PoligonZ.BoundsInfo) :
  PoligonZ.tile_bounds fmt6 loads dir pdir t tt = Returned own ->
  map (fun r => (PoligonZ.tile_url r, PoligonZ.refine r, PoligonZ.tileset_dir r))
      own
  = if has_box t then [(stored_url t, _refine t, dir)] else [].
Proof.
  unfold PoligonZ.tile_bounds, has_box, stored_url.
  destruct (bounding_volume t) as [box |].
  - destruct (PoligonZ.apply_transform _ tt) as [pts |]; [| discriminate].
    destruct (PoligonZ.all_unique pts); [| discriminate].
    intros [= <-]. reflexivity.
  - intros [= <-]. reflexivity.
Qed.

(** X18.  When the walk of 3DTilesParserPoligonZ.py returns, it returns one
    record for every tile with a box, leaf or not, with or without content,
    in the order of the walk; the record carries the tile's content reference
    (NULL when empty or missing), its refine mode and the tileset directory. *)
Theorem X18_poligonz_records_follow_preorder
        (fmt6 : Qc -> string) (loads : string -> bool) (dir pdir : string)
        (root : Tile) (recs : list PoligonZ.BoundsInfo) :
  PoligonZ.collect_tileset_bounds fmt6 loads dir pdir root = Returned recs ->
  map (fun r => (PoligonZ.tile_url r, PoligonZ.refine r, PoligonZ.tileset_dir r))
      recs
  = map (fun t => (stored_url t, _refine t, dir)) (filter has_box (preorder root)).
Proof.
  unfold PoligonZ.collect_tileset_bounds. generalize (@None (list Qc)).
  revert recs.
  induction root as [tr bv uri rf ch IH] using Tile_ind. intros recs cur.
  cbn [PoligonZ._recursive_collect children].
  set (t := mkTile tr bv uri rf ch).
  set (tt := PoligonZ.tile_transform_of t cur).
  destruct (PoligonZ.tile_bounds fmt6 loads dir pdir t tt) as [own | e] eqn:Eown;
    [| discriminate].
  intros H. apply extend_all_returned_inv in H as (parts & F & ->).
  rewrite map_app, (poligonz_tile_bounds_fields _ _ _ _ _ _ _ Eown).
  rewrite (concat_parts_flat_map _
             (fun c => map (fun t => (stored_url t, _refine t, dir))
                           (filter has_box (preorder c))) ch parts).
  - rewrite <- map_flat_map, <- filter_flat_map.
    unfold t. cbn [preorder children filter].
    destruct (has_box (mkTile tr bv uri rf ch)); reflexivity.
  - rewrite Forall_forall in IH. clear Eown. clearbody tt. clear t. revert IH.
    induction F as [| c part cs parts Hc F IHF]; intros IH; constructor.
    + eapply IH; [now left | exact Hc].
    + apply IHF. intros x Hx. apply IH. now right.
Qed.

Lemma X18_poligonz_records_follow_preorder_witness :
  exists recs,
    PoligonZ.collect_tileset_bounds show_q (fun _ => true) "dir" "p" json_parent
    = Returned recs
    /\ map (fun r => (PoligonZ.tile_url r, PoligonZ.refine r,
                      PoligonZ.tileset_dir r)) recs
       = [ (Some "sub/tileset.json"%string, "ADD"%string, "dir"%string);
           (Some "a.b3dm"%string, "ADD"%string, "dir"%string) ].
Proof.
  destruct (PoligonZ.collect_tileset_bounds show_q (fun _ => true) "dir" "p"
              json_parent) as [recs | e] eqn:E.
  - exists recs. split; [reflexivity |].
    rewrite (X18_poligonz_records_follow_preorder show_q (fun _ => true)
               "dir"%string "p"%string json_parent recs E).
    reflexivity.
  - exfalso. vm_compute in E. discriminate.
Defined.

Lemma multipath_tile_bounds_fields fmt dir pdir (t : Tile)
      (tt : option (list Qc)) (own : list MultiPath.BoundsInfo) :
  MultiPath.tile_bounds fmt dir pdir t tt = Some own ->
  map (fun r => (MultiPath.tile_url r, MultiPath.refine r, MultiPath.tileset_dir r))
      own
  = if has_box t then [(stored_url t, _refine t, dir)] else [].
Proof.
  unfold MultiPath.tile_bounds, has_box, stored_url.
  destruct (bounding_volume t) as [box |].
  - destruct (MultiPath.world_points box tt) as [pts |]; [| discriminate].
    destruct (MultiPath.create_polyhedron_wkt fmt _) as [w |]; [| discriminate].
    intros [= <-]. reflexivity.
  - intros [= <-]. reflexivity.
Qed.

(** X19.  When the walk of 3DTilesParserMultiPath.py returns, it returns one
    record for every tile with a box, leaf or not, in the order of the walk,
    whatever transform is handed in; the record carries the tile's content
    reference (None when empty or missing), its refine mode and the tileset
    directory. *)
Theorem X19_multipath_records_follow_preorder
        (fmt : Qc -> string) (dir pdir : string) (root : Tile)
        (base_transform : option (list Qc)) (recs : list MultiPath.BoundsInfo) :
  MultiPath.collect_tileset_bounds fmt dir pdir root base_transform = Some recs ->
  map (fun r => (MultiPath.tile_url r, MultiPath.refine r, MultiPath.tileset_dir r))
      recs
  = map (fun t => (stored_url t, _refine t, dir)) (filter has_box (preorder root)).
Proof.
  unfold MultiPath.collect_tileset_bounds. revert recs base_transform.
  induction root as [tr bv uri rf ch IH] using Tile_ind. intros recs cur.
  cbn [MultiPath._recursive_collect children].
  set (t := mkTile tr bv uri rf ch).
  set (tt := MultiPath.tile_transform_of t cur).
  destruct (MultiPath.tile_bounds fmt dir pdir t tt) as [own |] eqn:Eown;
    [| discriminate].
  intros H. apply extend_each_some_inv in H as (parts & F & ->).
  rewrite map_app, (multipath_tile_bounds_fields _ _ _ _ _ _ Eown).
  rewrite (concat_parts_flat_map _
             (fun c => map (fun t => (stored_url t, _refine t, dir))
                           (filter has_box (preorder c))) ch parts).
  - rewrite <- map_flat_map, <- filter_flat_map.
    unfold t. cbn [preorder children filter].
    destruct (has_box (mkTile tr bv uri rf ch)); reflexivity.
  - rewrite Forall_forall in IH. clear Eown. clearbody tt. clear t. revert IH.
    induction F as [| c part cs parts Hc F IHF]; intros IH; constructor.
    + eapply IH; [now left | exact Hc].
    + apply IHF. intros x Hx. apply IH. now right.
Qed.

Lemma X19_multipath_records_follow_preorder_witness :
  exists recs,
    MultiPath.collect_tileset_bounds show_q "dir" "p" moved_root None = Some recs
    /\ map (fun r => (MultiPath.tile_url r, MultiPath.refine r,
                      MultiPath.tileset_dir r)) recs
       = [ (Some "a.b3dm"%string, "ADD"%string, "dir"%string) ].
Proof.
  destruct (MultiPath.collect_tileset_bounds show_q "dir" "p" moved_root None)
    as [recs |] eqn:E.
  - exists recs. split; [reflexivity |].
    rewrite (X19_multipath_records_follow_preorder show_q
               "dir"%string "p"%string moved_root None recs E).
    reflexivity.
  - exfalso. vm_compute in E. discriminate.
Defined.

(** ** What a row of the result set tells *)


(** ** The shoelace area of parse_tileset_test_update.py *)

Lemma fold_left_qsum {A : Type} (g : A -> Qc) (l : list A) (a : Qc) :
  fold_left (fun acc i => acc + g i) l a = a + qsum (map g l).
Proof.
  unfold qsum.
  revert a. induction l as [| x l IH]; intros a; cbn [fold_left map fold_right].
  - ring.
  - rewrite IH. ring.
Qed.

Lemma qsum_app (l1 l2 : list Qc) : qsum (l1 ++ l2) = qsum l1 + qsum l2.
Proof.
  unfold qsum in *.
  induction l1 as [| x l1 IH]; cbn [app fold_right]; [ring |].
  rewrite IH. ring.
Qed.

Lemma open_sum_index (d a : V3) (r : list V3) :
  qsum (map (fun i => ParseTileset.shoelace_term (nth i (a :: r) d)
                                                 (nth (i + 1) (a :: r) d))
            (seq 0 (List.length r)))
  = open_sum (a :: r).
Proof.
  unfold qsum.
  revert a. induction r as [| b r IH]; intros a; [reflexivity |].
  change (open_sum (a :: b :: r))
    with (ParseTileset.shoelace_term a b + open_sum (b :: r)).
  rewrite <- (IH b).
  cbn [List.length seq map fold_right].
  rewrite <- seq_shift, map_map.
  cbn [nth Nat.add]. reflexivity.
Qed.

Lemma last_default {A : Type} (a : A) (r : list A) (d d' : A) :
  last (a :: r) d = last (a :: r) d'.
Proof.
  revert a. induction r as [| b r IH]; intros a; [reflexivity |].
  change (last (b :: r) d = last (b :: r) d'). apply IH.
Qed.

Lemma nth_length_last {A : Type} (a : A) (r : list A) (d : A) :
  nth (List.length r) (a :: r) d = last (a :: r) d.
Proof.
  revert a. induction r as [| b r IH]; intros a; [reflexivity |].
  change (nth (List.length r) (b :: r) d = last (b :: r) d). apply IH.
Qed.

(** The loop over the indices, with its wrap-around, as a sum over the list. *)
Lemma shoelace_loop (a : V3) (r : list V3) :
  let polygon := a :: r in
  fold_left (fun area i =>
               area + ParseTileset.shoelace_term
                        (nth i polygon (0, 0, 0))
                        (nth ((i + 1) mod List.length polygon) polygon (0, 0, 0)))
            (seq 0 (List.length polygon)) 0
  = open_sum polygon + ParseTileset.shoelace_term (last polygon a) a.
Proof.
  intros polygon. rewrite fold_left_qsum.
  unfold polygon. cbn [List.length]. rewrite seq_S, map_app, qsum_app.
  cbn [Nat.add map qsum fold_right].
  rewrite (map_ext_in _
             (fun i => ParseTileset.shoelace_term (nth i (a :: r) (0, 0, 0))
                                                  (nth (i + 1) (a :: r) (0, 0, 0)))).
  - rewrite open_sum_index.
    replace ((List.length r + 1) mod S (List.length r))%nat with 0%nat.
    + rewrite nth_length_last, (last_default a r (0, 0, 0) a).
      cbn [nth]. ring.
    + rewrite Nat.add_1_r. symmetry. apply Nat.Div0.mod_same.
  - intros i Hi. apply in_seq in Hi.
    rewrite Nat.mod_small by lia. reflexivity.
Qed.

Lemma open_sum_snoc (a h : V3) (r : list V3) :
  open_sum ((a :: r) ++ [h])
  = open_sum (a :: r) + ParseTileset.shoelace_term (last (a :: r) a) h.
Proof.
  revert a. induction r as [| b r IH]; intros a.
  - cbn [app open_sum last]. ring.
  - change (ParseTileset.shoelace_term a b + open_sum ((b :: r) ++ [h])
            = ParseTileset.shoelace_term a b + open_sum (b :: r)
              + ParseTileset.shoelace_term (last (b :: r) a) h).
    rewrite IH.
    rewrite (last_default b r a b). ring.
Qed.

Lemma shoelace_term_same (p : V3) : ParseTileset.shoelace_term p p = 0.
Proof. destruct p as [[x y] z]. unfold ParseTileset.shoelace_term. ring. Qed.

Lemma Qcabs_half_nonneg (s : Qc) : 0 <= Qcabs s / qz 2.
Proof.
  pose proof (Qcabs_nonneg s) as H. set (a := Qcabs s) in *. clearbody a.
  assert (Hz : 0 <= / qz 2) by (apply Qcleb_true; vm_compute; reflexivity).
  pose proof (Qcmult_le_compat_r 0 a (/ qz 2) H Hz) as K.
  rewrite Qcmult_0_l in K. exact K.
Qed.

Lemma half_of_eight (k : Qc) : qz 8 * k / qz 2 = qz 4 * k.
Proof.
  apply Qc_is_canon. unfold Qcdiv, Qcmult, Qcinv, qz, Q2Qc. cbn [this].
  rewrite !Qred_correct. field.
Qed.

(** X22.  [calculate_polygon_area] of parse_tileset_test_update.py: the area
    is 0 for fewer than three vertices and never negative; a ring that
    repeats its first vertex at the end, as the script's footprint rings do,
    has the area of the ring without the repeat; and the closed ring over the
    lower face of a box with half axes [u] and [v] has area
    [4 * |u_x v_y - u_y v_x|], whatever the z values are. *)
Theorem X22_polygon_area :
  (forall polygon, (List.length polygon < 3)%nat ->
                   ParseTileset.calculate_polygon_area polygon = 0)
  /\ (forall polygon, 0 <= ParseTileset.calculate_polygon_area polygon)
  /\ (forall first rest,
         (3 <= List.length (first :: rest))%nat ->
         ParseTileset.calculate_polygon_area ((first :: rest) ++ [first])
         = ParseTileset.calculate_polygon_area (first :: rest))
  /\ (forall c u v w,
         ParseTileset.calculate_polygon_area (parallelogram_ring c u v w)
         = qz 4 * Qcabs (vx u * vy v - vy u * vx v)).
Proof.
  split; [| split; [| split]].
  - intros polygon H. unfold ParseTileset.calculate_polygon_area.
    apply Nat.ltb_lt in H. now rewrite H.
  - intros polygon. unfold ParseTileset.calculate_polygon_area.
    destruct (List.length polygon <? 3)%nat; [apply Qcle_refl |].
    apply Qcabs_half_nonneg.
  - intros first rest H. unfold ParseTileset.calculate_polygon_area.
    assert (E1 : (List.length (first :: rest) <? 3)%nat = false)
      by (apply Nat.ltb_ge; exact H).
    assert (E2 : (List.length ((first :: rest) ++ [first]) <? 3)%nat = false)
      by (apply Nat.ltb_ge; rewrite length_app; cbn [List.length] in *; lia).
    rewrite E1, E2.
    change ((first :: rest) ++ [first]) with (first :: (rest ++ [first])).
    rewrite (shoelace_loop first (rest ++ [first])), (shoelace_loop first rest).
    change (first :: rest ++ [first]) with ((first :: rest) ++ [first]).
    rewrite open_sum_snoc, last_last, shoelace_term_same.
    f_equal. f_equal. ring.
  - intros [[cx cy] cz] [[ux uy] uz] [[vx' vy'] vz'] [[wx wy] wz].
    unfold ParseTileset.calculate_polygon_area, parallelogram_ring.
    cbn [List.length Nat.ltb Nat.leb].
    match goal with
    | |- context [fold_left ?f (seq 0 ?n) 0] =>
        change (fold_left f (seq 0 n) 0)
          with (let polygon :=
                  parallelogram_ring (cx, cy, cz) (ux, uy, uz) (vx', vy', vz')
                                     (wx, wy, wz) in
                fold_left (fun area i =>
                             area + ParseTileset.shoelace_term
                                      (nth i polygon (0, 0, 0))
                                      (nth ((i + 1) mod List.length polygon)
                                           polygon (0, 0, 0)))
                          (seq 0 (List.length polygon)) 0)
    end.
    unfold parallelogram_ring. rewrite shoelace_loop.
    cbn [open_sum last]. unfold ParseTileset.shoelace_term, v3_sub, v3_add.
    cbn [vx vy fst snd].
    match goal with
    | |- Qcabs ?s / _ = _ =>
        replace s with ((1 + 1 + 1 + 1 + 1 + 1 + 1 + 1) * (ux * vy' - uy * vx'))
          by ring
    end.
    replace (1 + 1 + 1 + 1 + 1 + 1 + 1 + 1) with (qz 8)
      by (apply Qc_is_canon; reflexivity).
    rewrite Qcabs_Qcmult.
    rewrite (Qcabs_pos (qz 8)) by (apply Qcleb_true; vm_compute; reflexivity).
    apply half_of_eight.
Qed.

(** ** The geometry text of the MULTIPOLYGON Z script *)

Lemma poligonz_multipolygon_of_eight fmt6 loads (p0 p1 p2 p3 p4 p5 p6 p7 : V3) :
  PoligonZ.create_multipolygon_wkt fmt6 loads [p0; p1; p2; p3; p4; p5; p6; p7]
  = if loads (multipolygon_text fmt6 p0 p1 p2 p3 p4 p5 p6 p7)
    then Some (multipolygon_text fmt6 p0 p1 p2 p3 p4 p5 p6 p7)
    else None.
Proof. reflexivity. Qed.

Lemma poligonz_multipolygon_needs_eight fmt6 loads (points : list V3) :
  List.length points <> 8%nat ->
  PoligonZ.create_multipolygon_wkt fmt6 loads points = None.
Proof.
  intros H. unfold PoligonZ.create_multipolygon_wkt.
  apply Nat.eqb_neq in H. now rewrite H.
Qed.

Lemma length_eight {A : Type} (l : list A) :
  List.length l = 8%nat ->
  exists a0 a1 a2 a3 a4 a5 a6 a7, l = [a0; a1; a2; a3; a4; a5; a6; a7].
Proof.
  intros H.
  do 8 (destruct l as [| ? l]; [discriminate |]).
  destruct l; [| discriminate]. repeat eexists.
Qed.

Lemma poligonz_tile_bounds_geometry fmt6 loads dir pdir (t : Tile)
      (tt : list Qc) (own : list PoligonZ.BoundsInfo) :
  PoligonZ.tile_bounds fmt6 loads dir pdir t tt = Returned own ->
  Forall (checked_geometry fmt6 loads) own.
Proof.
  unfold PoligonZ.tile_bounds.
  destruct (bounding_volume t) as [box |]; [| intros [= <-]; constructor].
  destruct (PoligonZ.apply_transform _ tt) as [pts |]; [| discriminate].
  destruct (PoligonZ.all_unique pts) eqn:Eu; [| discriminate].
  intros [= <-]. constructor; [| constructor].
  intros w Hw. cbn [PoligonZ.to_ewkt] in Hw.
  apply all_unique_iff in Eu.
  destruct (Nat.eq_dec (List.length pts) 8) as [E8 | N8].
  - destruct (length_eight pts E8) as (p0 & p1 & p2 & p3 & p4 & p5 & p6 & p7 & ->).
    rewrite poligonz_multipolygon_of_eight in Hw.
    destruct (loads _) eqn:El; [| discriminate].
    injection Hw as <-. split; [exact El |].
    exists p0, p1, p2, p3, p4, p5, p6, p7. split; [exact Eu | reflexivity].
  - rewrite (poligonz_multipolygon_needs_eight _ _ _ N8) in Hw. discriminate.
Qed.

Lemma Forall_concat_parts {A : Type} (P : A -> Prop) (cs : list Tile)
      (parts : list (list A)) :
  Forall2 (fun _ part => Forall P part) cs parts -> Forall P (List.concat parts).
Proof.
  induction 1 as [| c part cs parts H F IH]; [constructor |].
  cbn [List.concat]. apply Forall_app. split; assumption.
Qed.

(** X23.  [create_multipolygon_wkt] of 3DTilesParserPoligonZ.py returns None
    for any number of points other than 8, and for 8 points returns the
    MULTIPOLYGON Z text of the six closed rings exactly when shapely parses
    that text.  So every geometry text in the records of a walk that returns
    was parsed by shapely and is made of eight pairwise distinct points. *)
Theorem X23_poligonz_geometry_texts
        (fmt6 : Qc -> string) (loads : string -> bool) (dir pdir : string) :
  (forall points, List.length points <> 8%nat ->
                  PoligonZ.create_multipolygon_wkt fmt6 loads points = None)
  /\ (forall p0 p1 p2 p3 p4 p5 p6 p7,
         PoligonZ.create_multipolygon_wkt fmt6 loads [p0; p1; p2; p3; p4; p5; p6; p7]
         = if loads (multipolygon_text fmt6 p0 p1 p2 p3 p4 p5 p6 p7)
           then Some (multipolygon_text fmt6 p0 p1 p2 p3 p4 p5 p6 p7)
           else None)
  /\ (forall root recs,
         PoligonZ.collect_tileset_bounds fmt6 loads dir pdir root = Returned recs ->
         Forall (checked_geometry fmt6 loads) recs).
Proof.
  split; [apply poligonz_multipolygon_needs_eight |].
  split; [apply poligonz_multipolygon_of_eight |].
  unfold PoligonZ.collect_tileset_bounds. generalize (@None (list Qc)).
  intros cur root. revert cur.
  induction root as [tr bv uri rf ch IH] using Tile_ind. intros cur recs.
  cbn [PoligonZ._recursive_collect children].
  set (t := mkTile tr bv uri rf ch).
  set (tt := PoligonZ.tile_transform_of t cur).
  destruct (PoligonZ.tile_bounds fmt6 loads dir pdir t tt) as [own | e] eqn:Eown;
    [| discriminate].
  intros H. apply extend_all_returned_inv in H as (parts & F & ->).
  apply Forall_app. split.
  - eapply poligonz_tile_bounds_geometry. exact Eown.
  - apply (Forall_concat_parts _ ch). rewrite Forall_forall in IH.
    clear Eown. clearbody tt. clear t. revert IH.
    induction F as [| c part cs parts Hc F IHF]; intros IH; constructor.
    + eapply IH; [now left | exact Hc].
    + apply IHF. intros x Hx. apply IH. now right.
Qed.
